(** * Python-M09: validated records for stations, contacts and missions

    A shallow embedding of the three exercises

      - [ex0/space_station.py]  ([SpaceStation], [display_station]),
      - [ex1/alien_contact.py]  ([AlienContact], [convert_duration]),
      - [ex2/space_crew.py]     ([CrewMember], [SpaceMission] and the three
                                 crew predicates),

    together with the properties their specification states.

    Conventions of the embedding:
      - a Python [int] is a [Z], a [float] a rational [Q] (finite values,
        compared exactly; NaN and the infinities are not represented), a
        [str] a [string], a [datetime] a [Z] (seconds);
      - keyword arguments are a record of [option]s, [None] meaning that the
        argument was not passed; an argument that is passed has the declared
        type of its field, a member of a [str]-valued [Enum] being passed as
        its value and a crew member as its own keyword arguments;
      - a constructor call returns [Ok self] or [ValidationError errors],
        with the errors in the order pydantic reports them;
      - [print] appends one line to the returned list of lines. *)

From Stdlib Require Import List String Ascii ZArith QArith Bool Lia.
From Stdlib Require Import DecimalString Permutation.
Import ListNotations.

Set Implicit Arguments.

Open Scope string_scope.
Open Scope Z_scope.

(* ================================================================== *)
(** * Definitions *)
(* ================================================================== *)

(** ** Python built-ins used by the three files *)

Module Py.

Abbreviation float := Q (only parsing).
Abbreviation datetime := Z (only parsing).

(** [str(n)] for an [int]. *)
Definition str (n : Z) : string := NilZero.string_of_int (Z.to_int n).

(** [len(s)] as an [int]. *)
Definition len (s : string) : Z := Z.of_nat (String.length s).

(** [s[:n]] *)
Definition slice_to (n : nat) (s : string) : string := substring 0 n s.

(** [a > b], [a >= b] on floats. *)
Definition fgt (a b : float) : bool := negb (Qle_bool a b).
Definition fge (a b : float) : bool := Qle_bool b a.
Definition flt (a b : float) : bool := fgt b a.

(** What a function body does: return a value or raise [ValueError]. *)
Inductive Raises (A : Type) : Type :=
| Return (a : A)
| ValueError (msg : string).
Arguments Return {A} a.
Arguments ValueError {A} msg.

End Py.

(** ** The part of pydantic the three files rely on

    [BaseModel.__init__] validates every declared field in declaration
    order and collects the errors of all of them; only when there is none
    does it build the instance and run the [model_validator(mode="after")]
    hook, whose [ValueError] becomes a single error of type [value_error]
    with an empty location. The message of that error is the argument of
    [ValueError]; pydantic displays it after the 13 characters of
    "Value error, ", which the [main] functions cut off. *)

Module Pydantic.
Import Py.

Inductive LocItem : Type :=
| Key (name : string)
| Index (i : nat).

Inductive ErrorType : Type :=
| missing
| string_too_short
| string_too_long
| greater_than_equal
| less_than_equal
| enum
| too_short
| too_long
| value_error (msg : string).

Record ErrorDetails : Type := { type : ErrorType; loc : list LocItem }.

Inductive Validated (A : Type) : Type :=
| Ok (value : A)
| ValidationError (errors : list ErrorDetails).
Arguments Ok {A} value.
Arguments ValidationError {A} errors.

Definition fail {A : Type} (t : ErrorType) : Validated A :=
  ValidationError [ {| type := t; loc := [] |} ].

(** Errors raised below a field or a list item are located under it. *)
Definition under {A : Type} (item : LocItem) (v : Validated A) : Validated A :=
  match v with
  | Ok a => Ok a
  | ValidationError errors =>
      ValidationError
        (map (fun e => {| type := type e; loc := item :: loc e |}) errors)
  end.

(** Validation goes on after a failure and accumulates the errors. *)
Definition ap {A B : Type} (f : Validated (A -> B)) (x : Validated A)
  : Validated B :=
  match f, x with
  | Ok g, Ok a => Ok (g a)
  | Ok _, ValidationError errors => ValidationError errors
  | ValidationError errors, Ok _ => ValidationError errors
  | ValidationError errors1, ValidationError errors2 =>
      ValidationError (errors1 ++ errors2)
  end.

(** [None] stands for a bound that [Field(...)] does not give. *)
Definition below {A : Type} (ltb : A -> A -> bool) (bound : option A) (x : A)
  : bool :=
  match bound with Some b => ltb x b | None => false end.

Definition above {A : Type} (ltb : A -> A -> bool) (bound : option A) (x : A)
  : bool :=
  match bound with Some b => ltb b x | None => false end.

(** [str] with [min_length] and [max_length]. *)
Definition constr_str (min_length max_length : option nat) (s : string)
  : Validated string :=
  if below Nat.ltb min_length (String.length s) then fail string_too_short
  else if above Nat.ltb max_length (String.length s) then fail string_too_long
  else Ok s.

(** [int] with [ge] and [le]. *)
Definition constr_int (ge le : option Z) (n : Z) : Validated Z :=
  if below Z.ltb ge n then fail greater_than_equal
  else if above Z.ltb le n then fail less_than_equal
  else Ok n.

(** [float] with [ge] and [le]. *)
Definition constr_float (ge le : option float) (x : float) : Validated float :=
  if below flt ge x then fail greater_than_equal
  else if above flt le x then fail less_than_equal
  else Ok x.

(** [T | None]: [None] is accepted as it is. *)
Definition nullable {A B : Type} (v : A -> Validated B) (x : option A)
  : Validated (option B) :=
  match x with
  | None => Ok None
  | Some a => ap (Ok Some) (v a)
  end.

(** A field type without constraint ([bool], [datetime], [str]). *)
Definition any {A : Type} (x : A) : Validated A := Ok x.

(** A [str]-valued [Enum]: the value must be one of the members'. *)
Definition enum_of {E : Type} (members : list E) (value : E -> string)
  (s : string) : Validated E :=
  match find (fun m => String.eqb (value m) s) members with
  | Some m => Ok m
  | None => fail enum
  end.

(** The items of a list, each located under its index. *)
Fixpoint validate_items {A B : Type} (v : A -> Validated B) (i : nat)
  (l : list A) : Validated (list B) :=
  match l with
  | [] => Ok []
  | a :: l' => ap (ap (Ok cons) (under (Index i) (v a)))
                  (validate_items v (S i) l')
  end.

(** [List[T]] with [min_length] and [max_length]: the errors of the items
    if there are any, else the error of the length. *)
Definition constr_list {A B : Type} (v : A -> Validated B)
  (min_length max_length : option nat) (l : list A) : Validated (list B) :=
  match validate_items v 0 l with
  | ValidationError errors => ValidationError errors
  | Ok items =>
      if below Nat.ltb min_length (List.length items) then fail too_short
      else if above Nat.ltb max_length (List.length items) then fail too_long
      else Ok items
  end.

(** A declared field: the argument when it is passed, else the default (a
    default is not validated), else the error [missing]. *)
Definition Field {A B : Type} (name : string) (v : A -> Validated B)
  (default : option B) (arg : option A) : Validated B :=
  match arg with
  | Some a => under (Key name) (v a)
  | None =>
      match default with
      | Some d => Ok d
      | None => under (Key name) (fail missing)
      end
  end.

(** [BaseModel.__init__]: the fields, then the "after" validator. *)
Definition BaseModel {R : Type} (fields : Validated R)
  (after : R -> Raises R) : Validated R :=
  match fields with
  | ValidationError errors => ValidationError errors
  | Ok self =>
      match after self with
      | Return r => Ok r
      | ValueError msg => fail (value_error msg)
      end
  end.

(** A model without "after" validator. *)
Definition no_validator {R : Type} (self : R) : Raises R := Return self.

End Pydantic.

Notation "f <*> x" := (Pydantic.ap f x) (at level 61, left associativity).

(** ** Vocabulary of the specification

    What the specification calls a field within its declared bounds, a
    cross-field rule, and the first failing rule of an ordered rule list. *)

Module Spec.

Definition len_between (lo hi : nat) (s : string) : bool :=
  ((lo <=? String.length s) && (String.length s <=? hi))%nat.

Definition int_between (lo hi : Z) (n : Z) : bool :=
  (lo <=? n) && (n <=? hi).

Definition float_between (lo hi : Q) (x : Q) : bool :=
  Qle_bool lo x && Qle_bool x hi.

(** A field without default: a value must be supplied and be in bounds. *)
Definition required {A : Type} (ok : A -> bool) (arg : option A) : bool :=
  match arg with Some a => ok a | None => false end.

(** A field with a default: a supplied value must be in bounds. *)
Definition defaulted {A : Type} (ok : A -> bool) (arg : option A) : bool :=
  match arg with Some a => ok a | None => true end.

(** The value a field ends up with. *)
Definition or_default {A : Type} (d : A) (arg : option A) : A :=
  match arg with Some a => a | None => d end.

(** A cross-field rule: a predicate over the record and its message. *)
Record Rule (R : Type) : Type := { holds : R -> bool; message : string }.

(** The message of the first rule, in list order, that does not hold. *)
Fixpoint first_failing {R : Type} (rules : list (Rule R)) (self : R)
  : option string :=
  match rules with
  | [] => None
  | r :: rules' =>
      if holds r self then first_failing rules' self else Some (message r)
  end.

(** Rule number [k] fails and every rule before it holds. *)
Definition first_failing_at {R : Type} (rules : list (Rule R)) (self : R)
  (k : nat) (r : Rule R) : Prop :=
  nth_error rules k = Some r /\ holds r self = false /\
  forall j r', (j < k)%nat -> nth_error rules j = Some r' ->
               holds r' self = true.

Definition all_hold {R : Type} (rules : list (Rule R)) (self : R) : Prop :=
  Forall (fun r => holds r self = true) rules.

(** An error is a field-constraint violation naming [field] when it is
    located at or below that field. *)
Definition names_field (field : string) (e : Pydantic.ErrorDetails) : Prop :=
  hd_error (Pydantic.loc e) = Some (Pydantic.Key field) /\
  forall msg, Pydantic.type e <> Pydantic.value_error msg.

(** The failure of a cross-field rule: one error, at the model itself,
    carrying the rule's message. *)
Definition cross_field_violation {R : Type} (msg : string)
  : Pydantic.Validated R :=
  Pydantic.ValidationError
    [ {| Pydantic.type := Pydantic.value_error msg; Pydantic.loc := [] |} ].

(** Errors of the field-constraint layer: at least one, none of them the
    [value_error] of an "after" validator. *)
Definition not_value_error (e : Pydantic.ErrorDetails) : Prop :=
  forall msg, Pydantic.type e <> Pydantic.value_error msg.

Definition constraint_errors (errors : list Pydantic.ErrorDetails) : Prop :=
  errors <> [] /\ Forall not_value_error errors.

(** At least one error, and every one names [field]. *)
Definition field_errors (field : string)
  (errors : list Pydantic.ErrorDetails) : Prop :=
  errors <> [] /\ Forall (names_field field) errors.

(** The validator [v] accepts exactly the values that [ok] accepts, and
    returns a value related to its input by [rel]. *)
Definition decides {A B : Type} (ok : A -> bool) (rel : A -> B -> Prop)
  (v : A -> Pydantic.Validated B) : Prop :=
  forall a,
    if ok a then exists b, v a = Pydantic.Ok b /\ rel a b
    else exists errors,
        v a = Pydantic.ValidationError errors /\ constraint_errors errors.

(** The outcome of a declared field, for a field without default and for
    one with default [d]. *)
Definition required_outcome {A B : Type} (ok : A -> bool)
  (rel : A -> B -> Prop) (field : string) (arg : option A)
  (res : Pydantic.Validated B) : Prop :=
  if required ok arg
  then exists a b, arg = Some a /\ res = Pydantic.Ok b /\ rel a b
  else exists errors,
      res = Pydantic.ValidationError errors /\ field_errors field errors.

Definition defaulted_outcome {A B : Type} (ok : A -> bool)
  (rel : A -> B -> Prop) (field : string) (d : B) (arg : option A)
  (res : Pydantic.Validated B) : Prop :=
  if defaulted ok arg
  then exists b, res = Pydantic.Ok b /\
                 match arg with Some a => rel a b | None => b = d end
  else exists errors,
      res = Pydantic.ValidationError errors /\ field_errors field errors.

(** A validation result whose errors, if any, are constraint errors. *)
Definition sound {A : Type} (res : Pydantic.Validated A) : Prop :=
  match res with
  | Pydantic.Ok _ => True
  | Pydantic.ValidationError errors => constraint_errors errors
  end.

End Spec.

(** ** ex0/space_station.py *)

Module space_station.
Import Py Pydantic.

Record SpaceStation : Type := {
  station_id : string;
  name : string;
  crew_size : Z;
  power_level : float;
  oxygen_level : float;
  last_maintenance : datetime;
  is_operational : bool;
  notes : option string
}.

Record kwargs : Type := {
  kw_station_id : option string;
  kw_name : option string;
  kw_crew_size : option Z;
  kw_power_level : option float;
  kw_oxygen_level : option float;
  kw_last_maintenance : option datetime;
  kw_is_operational : option bool;
  kw_notes : option (option string)
}.

(** The field declarations of the class, in order. [now] is what
    [datetime.now()] returns when the default factory is called. *)
Definition SpaceStation_fields (now : datetime) (kw : kwargs)
  : Validated SpaceStation :=
  Ok Build_SpaceStation
  <*> Field "station_id" (constr_str (Some 3%nat) (Some 10%nat)) None
        (kw_station_id kw)
  <*> Field "name" (constr_str (Some 1%nat) (Some 50%nat)) None (kw_name kw)
  <*> Field "crew_size" (constr_int (Some 1) (Some 20)) None (kw_crew_size kw)
  <*> Field "power_level" (constr_float (Some 0%Q) (Some 100%Q)) None
        (kw_power_level kw)
  <*> Field "oxygen_level" (constr_float (Some 0%Q) (Some 100%Q)) None
        (kw_oxygen_level kw)
  <*> Field "last_maintenance" any (Some now) (kw_last_maintenance kw)
  <*> Field "is_operational" any (Some true) (kw_is_operational kw)
  <*> Field "notes" (nullable (constr_str None (Some 200%nat))) (Some None)
        (kw_notes kw).

(** The constructor call [SpaceStation(...)]. *)
Definition SpaceStation_init (now : datetime) (kw : kwargs)
  : Validated SpaceStation :=
  BaseModel (SpaceStation_fields now kw) no_validator.

Section Display.
(** [str(x)] for a [float], which [print] uses. *)
Variable repr : float -> string.

(** The lines that [display_station] prints. *)
Definition display_station (station : SpaceStation) : list string :=
  [ "ID: " ++ station_id station;
    "Name: " ++ name station;
    "Crew: " ++ str (crew_size station);
    "Power: " ++ repr (power_level station);
    "Oxygen: " ++ repr (oxygen_level station);
    "Status: " ++ (if is_operational station then "Non " else "")
               ++ "Operational" ].
End Display.

(** *** Specification side *)

Inductive field : Type :=
| F_station_id | F_name | F_crew_size | F_power_level | F_oxygen_level
| F_last_maintenance | F_is_operational | F_notes.

Definition field_name (f : field) : string :=
  match f with
  | F_station_id => "station_id"
  | F_name => "name"
  | F_crew_size => "crew_size"
  | F_power_level => "power_level"
  | F_oxygen_level => "oxygen_level"
  | F_last_maintenance => "last_maintenance"
  | F_is_operational => "is_operational"
  | F_notes => "notes"
  end.

(** Station: id 3-10 characters, name 1-50, crew_size 1-20, power_level
    and oxygen_level 0-100, notes at most 200 characters. *)
Definition within_bounds (kw : kwargs) (f : field) : bool :=
  match f with
  | F_station_id => Spec.required (Spec.len_between 3 10) (kw_station_id kw)
  | F_name => Spec.required (Spec.len_between 1 50) (kw_name kw)
  | F_crew_size => Spec.required (Spec.int_between 1 20) (kw_crew_size kw)
  | F_power_level =>
      Spec.required (Spec.float_between 0%Q 100%Q) (kw_power_level kw)
  | F_oxygen_level =>
      Spec.required (Spec.float_between 0%Q 100%Q) (kw_oxygen_level kw)
  | F_last_maintenance => true
  | F_is_operational => true
  | F_notes =>
      Spec.defaulted
        (fun n => match n with
                  | Some s => (String.length s <=? 200)%nat
                  | None => true
                  end)
        (kw_notes kw)
  end.

(** The record's fields are the supplied values, or the defaults. *)
Definition supplied (now : datetime) (kw : kwargs) (self : SpaceStation)
  : Prop :=
  kw_station_id kw = Some (station_id self) /\
  kw_name kw = Some (name self) /\
  kw_crew_size kw = Some (crew_size self) /\
  kw_power_level kw = Some (power_level self) /\
  kw_oxygen_level kw = Some (oxygen_level self) /\
  last_maintenance self = Spec.or_default now (kw_last_maintenance kw) /\
  is_operational self = Spec.or_default true (kw_is_operational kw) /\
  notes self = Spec.or_default None (kw_notes kw).

(** The declared constraints, on a record. *)
Definition constraints (self : SpaceStation) : Prop :=
  (3 <= String.length (station_id self) <= 10)%nat /\
  (1 <= String.length (name self) <= 50)%nat /\
  1 <= crew_size self <= 20 /\
  (0 <= power_level self /\ power_level self <= 100)%Q /\
  (0 <= oxygen_level self /\ oxygen_level self <= 100)%Q /\
  (forall s, notes self = Some s -> (String.length s <= 200)%nat).

(** Station has no cross-field rule. *)
Definition rules : list (Spec.Rule SpaceStation) := [].

Definition valid (self : SpaceStation) : Prop :=
  constraints self /\ Spec.all_hold rules self.

(** The first station of [main]. *)
Definition station1 : kwargs := {|
  kw_station_id := Some "ISS001";
  kw_name := Some "International Space Station";
  kw_crew_size := Some 6;
  kw_power_level := Some (855 # 10)%Q;
  kw_oxygen_level := Some (923 # 10)%Q;
  kw_last_maintenance := None;
  kw_is_operational := Some true;
  kw_notes := None
|}.

(** The second station of [main]: 25 is no crew size. *)
Definition station2 : kwargs := {|
  kw_station_id := Some "100SSI";
  kw_name := Some "Station Space International";
  kw_crew_size := Some 25;
  kw_power_level := Some (855 # 10)%Q;
  kw_oxygen_level := Some (923 # 10)%Q;
  kw_last_maintenance := None;
  kw_is_operational := Some false;
  kw_notes := None
|}.

End space_station.

(** ** ex1/alien_contact.py *)

Module alien_contact.
Import Py Pydantic.

Inductive ContactType : Type := radio | visual | physical | telepathic.

Definition ContactType_value (t : ContactType) : string :=
  match t with
  | radio => "radio"
  | visual => "visual"
  | physical => "physical"
  | telepathic => "telepathic"
  end.

Definition ContactType_members : list ContactType :=
  [radio; visual; physical; telepathic].

Definition ContactType_eqb (a b : ContactType) : bool :=
  match a, b with
  | radio, radio | visual, visual | physical, physical
  | telepathic, telepathic => true
  | _, _ => false
  end.

Record AlienContact : Type := {
  contact_id : string;
  timestamp : datetime;
  location : string;
  contact_type : ContactType;
  signal_strength : float;
  duration_minutes : Z;
  witness_count : Z;
  message_received : option string;
  is_verified : bool
}.

Record kwargs : Type := {
  kw_contact_id : option string;
  kw_timestamp : option datetime;
  kw_location : option string;
  kw_contact_type : option string;
  kw_signal_strength : option float;
  kw_duration_minutes : option Z;
  kw_witness_count : option Z;
  kw_message_received : option (option string);
  kw_is_verified : option bool
}.

Definition AlienContact_fields (now : datetime) (kw : kwargs)
  : Validated AlienContact :=
  Ok Build_AlienContact
  <*> Field "contact_id" (constr_str (Some 5%nat) (Some 15%nat)) None
        (kw_contact_id kw)
  <*> Field "timestamp" any (Some now) (kw_timestamp kw)
  <*> Field "location" (constr_str (Some 3%nat) (Some 100%nat)) None
        (kw_location kw)
  <*> Field "contact_type" (enum_of ContactType_members ContactType_value)
        None (kw_contact_type kw)
  <*> Field "signal_strength" (constr_float (Some 0%Q) (Some 10%Q)) None
        (kw_signal_strength kw)
  <*> Field "duration_minutes" (constr_int (Some 1) (Some 1440)) None
        (kw_duration_minutes kw)
  <*> Field "witness_count" (constr_int (Some 1) (Some 100)) None
        (kw_witness_count kw)
  <*> Field "message_received" any (Some None) (kw_message_received kw)
  <*> Field "is_verified" any (Some false) (kw_is_verified kw).

Definition is_None {A : Type} (x : option A) : bool :=
  match x with None => true | Some _ => false end.

(** The "after" validator of the class: an [if]/[elif] chain that sets
    [error], then raises when it was set. *)
Definition check_model (self : AlienContact) : Raises AlienContact :=
  let error := "" in
  let condition1 := negb (is_verified self) in
  let condition2 := witness_count self <? 3 in
  let error :=
    if (len (contact_id self) <? 2)
       || negb (String.eqb (slice_to 2 (contact_id self)) "AC")
    then "Contact ID must start with 'AC' (Alien Contact)"
    else if ContactType_eqb (contact_type self) physical && condition1
    then "physical contact reports must be verified"
    else if ContactType_eqb (contact_type self) telepathic && condition2
    then "telepathic contact requires at least 3 witnesses"
    else if fgt (signal_strength self) 7%Q && is_None (message_received self)
    then "Strong signals (> 7.0) should include received messages"
    else error in
  if negb (String.eqb error "") then ValueError error else Return self.

(** The constructor call [AlienContact(...)]. *)
Definition AlienContact_init (now : datetime) (kw : kwargs)
  : Validated AlienContact :=
  BaseModel (AlienContact_fields now kw) check_model.

Definition convert_duration (duration : Z) : string :=
  let res := "" in
  let res :=
    if duration >=? 60 then
      let plurial := "" in
      let plurial := if duration >=? 120 then "s" else plurial in
      let res := res ++ (str (duration / 60) ++ " hour" ++ plurial) in
      if negb (duration mod 60 =? 0) then res ++ " " else res
    else res in
  if duration mod 60 =? 0 then res
  else
    let plurial := "" in
    let plurial := if negb (duration mod 60 =? 1) then "s" else plurial in
    let res := res ++ (str (duration mod 60) ++ " minute" ++ plurial) in
    res.

(** *** Specification side *)

Inductive field : Type :=
| F_contact_id | F_timestamp | F_location | F_contact_type
| F_signal_strength | F_duration_minutes | F_witness_count
| F_message_received | F_is_verified.

Definition field_name (f : field) : string :=
  match f with
  | F_contact_id => "contact_id"
  | F_timestamp => "timestamp"
  | F_location => "location"
  | F_contact_type => "contact_type"
  | F_signal_strength => "signal_strength"
  | F_duration_minutes => "duration_minutes"
  | F_witness_count => "witness_count"
  | F_message_received => "message_received"
  | F_is_verified => "is_verified"
  end.

(** Contact: id 5-15 characters, location 3-100, contact_type one of
    radio, visual, physical, telepathic, signal_strength 0-10,
    duration_minutes 1-1440, witness_count 1-100. *)
Definition within_bounds (kw : kwargs) (f : field) : bool :=
  match f with
  | F_contact_id => Spec.required (Spec.len_between 5 15) (kw_contact_id kw)
  | F_timestamp => true
  | F_location => Spec.required (Spec.len_between 3 100) (kw_location kw)
  | F_contact_type =>
      Spec.required
        (fun s => existsb (String.eqb s)
                    ["radio"; "visual"; "physical"; "telepathic"])
        (kw_contact_type kw)
  | F_signal_strength =>
      Spec.required (Spec.float_between 0%Q 10%Q) (kw_signal_strength kw)
  | F_duration_minutes =>
      Spec.required (Spec.int_between 1 1440) (kw_duration_minutes kw)
  | F_witness_count =>
      Spec.required (Spec.int_between 1 100) (kw_witness_count kw)
  | F_message_received => true
  | F_is_verified => true
  end.

Definition supplied (now : datetime) (kw : kwargs) (self : AlienContact)
  : Prop :=
  kw_contact_id kw = Some (contact_id self) /\
  timestamp self = Spec.or_default now (kw_timestamp kw) /\
  kw_location kw = Some (location self) /\
  kw_contact_type kw = Some (ContactType_value (contact_type self)) /\
  kw_signal_strength kw = Some (signal_strength self) /\
  kw_duration_minutes kw = Some (duration_minutes self) /\
  kw_witness_count kw = Some (witness_count self) /\
  message_received self = Spec.or_default None (kw_message_received kw) /\
  is_verified self = Spec.or_default false (kw_is_verified kw).

Definition constraints (self : AlienContact) : Prop :=
  (5 <= String.length (contact_id self) <= 15)%nat /\
  (3 <= String.length (location self) <= 100)%nat /\
  (0 <= signal_strength self /\ signal_strength self <= 10)%Q /\
  1 <= duration_minutes self <= 1440 /\
  1 <= witness_count self <= 100.

Definition strictly_above (bound x : Q) : bool :=
  match (bound ?= x)%Q with Lt => true | _ => false end.

(** The four rules of a Contact, in their order: the id starts with "AC";
    a physical contact is verified; a telepathic contact has at least 3
    witnesses; a signal stronger than 7 comes with a message. *)
Definition rules : list (Spec.Rule AlienContact) :=
  [ {| Spec.holds := fun c => prefix "AC" (contact_id c);
       Spec.message := "Contact ID must start with 'AC' (Alien Contact)" |};
    {| Spec.holds := fun c =>
         match contact_type c with
         | physical => is_verified c
         | _ => true
         end;
       Spec.message := "physical contact reports must be verified" |};
    {| Spec.holds := fun c =>
         match contact_type c with
         | telepathic => 3 <=? witness_count c
         | _ => true
         end;
       Spec.message := "telepathic contact requires at least 3 witnesses" |};
    {| Spec.holds := fun c =>
         implb (strictly_above 7%Q (signal_strength c))
               (match message_received c with Some _ => true | None => false end);
       Spec.message :=
         "Strong signals (> 7.0) should include received messages" |} ].

Definition valid (self : AlienContact) : Prop :=
  constraints self /\ Spec.all_hold rules self.

(** The duration phrase as the specification words it: the hour phrase
    when there is at least one hour, the minute phrase when minutes remain,
    a unit in the singular exactly when its count is 1. *)
Definition unit_phrase (count : Z) (unit : string) : string :=
  str count ++ " " ++ unit ++ (if count =? 1 then "" else "s").

Definition duration_phrase (duration : Z) : string :=
  let hours := duration / 60 in
  let minutes := duration mod 60 in
  match (60 <=? duration)%Z, negb (minutes =? 0)%Z with
  | true, true => unit_phrase hours "hour" ++ " " ++ unit_phrase minutes "minute"
  | true, false => unit_phrase hours "hour"
  | false, true => unit_phrase minutes "minute"
  | false, false => ""
  end.

(** The two reports of [main]. *)
Definition contact1 : kwargs := {|
  kw_contact_id := Some "AC_2024_001";
  kw_timestamp := None;
  kw_location := Some "Area 51, Nevada";
  kw_contact_type := Some "radio";
  kw_signal_strength := Some (85 # 10)%Q;
  kw_duration_minutes := Some 45;
  kw_witness_count := Some 5;
  kw_message_received := Some (Some "Greetings from Zeta Reticuli");
  kw_is_verified := None
|}.

Definition contact2 : kwargs := {|
  kw_contact_id := Some "AC_2471_PEP";
  kw_timestamp := None;
  kw_location := Some "Area 42, Lyon";
  kw_contact_type := Some "telepathic";
  kw_signal_strength := Some (42 # 10)%Q;
  kw_duration_minutes := Some 42;
  kw_witness_count := Some 1;
  kw_message_received := Some (Some "Greetings from CRAPPO the First");
  kw_is_verified := None
|}.

(** The record that the second report assembles to, at time [now]. *)
Definition contact2_record (now : datetime) : AlienContact := {|
  contact_id := "AC_2471_PEP";
  timestamp := now;
  location := "Area 42, Lyon";
  contact_type := telepathic;
  signal_strength := (42 # 10)%Q;
  duration_minutes := 42;
  witness_count := 1;
  message_received := Some "Greetings from CRAPPO the First";
  is_verified := false
|}.

End alien_contact.

(** ** ex2/space_crew.py *)

Module space_crew.
Import Py Pydantic.

Inductive Rank : Type := cadet | officer | lieutenant | captain | commander.

Definition Rank_value (r : Rank) : string :=
  match r with
  | cadet => "cadet"
  | officer => "officer"
  | lieutenant => "lieutenant"
  | captain => "captain"
  | commander => "commander"
  end.

Definition Rank_members : list Rank :=
  [cadet; officer; lieutenant; captain; commander].

Definition Rank_eqb (a b : Rank) : bool :=
  match a, b with
  | cadet, cadet | officer, officer | lieutenant, lieutenant
  | captain, captain | commander, commander => true
  | _, _ => false
  end.

Record CrewMember : Type := {
  member_id : string;
  name : string;
  rank : Rank;
  age : Z;
  specialization : string;
  years_experience : Z;
  is_active : bool
}.

Record CrewMember_kwargs : Type := {
  kw_member_id : option string;
  kw_name : option string;
  kw_rank : option string;
  kw_age : option Z;
  kw_specialization : option string;
  kw_years_experience : option Z;
  kw_is_active : option bool
}.

Definition CrewMember_fields (kw : CrewMember_kwargs) : Validated CrewMember :=
  Ok Build_CrewMember
  <*> Field "member_id" (constr_str (Some 3%nat) (Some 10%nat)) None
        (kw_member_id kw)
  <*> Field "name" (constr_str (Some 2%nat) (Some 50%nat)) None (kw_name kw)
  <*> Field "rank" (enum_of Rank_members Rank_value) None (kw_rank kw)
  <*> Field "age" (constr_int (Some 18) (Some 80)) None (kw_age kw)
  <*> Field "specialization" (constr_str (Some 3%nat) (Some 30%nat)) None
        (kw_specialization kw)
  <*> Field "years_experience" (constr_int (Some 0) (Some 50)) None
        (kw_years_experience kw)
  <*> Field "is_active" any (Some true) (kw_is_active kw).

(** The constructor call [CrewMember(...)]. *)
Definition CrewMember_init (kw : CrewMember_kwargs) : Validated CrewMember :=
  BaseModel (CrewMember_fields kw) no_validator.

(** The loop keeps two counters and tests them at the end. *)
Definition not_min_rank (crew : list CrewMember) : bool :=
  let '(nb_commander, nb_captain) :=
    fold_left
      (fun '(nb_commander, nb_captain) person =>
         if Rank_eqb (rank person) commander
         then (nb_commander + 1, nb_captain)
         else if Rank_eqb (rank person) captain
         then (nb_commander, nb_captain + 1)
         else (nb_commander, nb_captain))
      crew (0, 0) in
  (nb_commander =? 0) && (nb_captain =? 0).

(** The loop returns at the first member who is not active. *)
Fixpoint active_crew (crew : list CrewMember) : bool :=
  match crew with
  | [] => true
  | person :: crew' =>
      if negb (is_active person) then false else active_crew crew'
  end.

(** The count is an [int], [len(crew) / 2] a [float]. *)
Definition experience_crew (crew : list CrewMember) : bool :=
  let nb_experience :=
    fold_left
      (fun nb_experience person =>
         if years_experience person >? 5 then nb_experience + 1
         else nb_experience)
      crew 0 in
  fge (inject_Z nb_experience)
      (inject_Z (Z.of_nat (List.length crew)) / 2)%Q.

Record SpaceMission : Type := {
  mission_id : string;
  mission_name : string;
  destination : string;
  lauch_date : datetime;
  duration_days : Z;
  crew : list CrewMember;
  mission_status : string;
  budget_millions : float
}.

Record kwargs : Type := {
  kw_mission_id : option string;
  kw_mission_name : option string;
  kw_destination : option string;
  kw_lauch_date : option datetime;
  kw_duration_days : option Z;
  kw_crew : option (list CrewMember_kwargs);
  kw_mission_status : option string;
  kw_budget_millions : option float
}.

Definition SpaceMission_fields (now : datetime) (kw : kwargs)
  : Validated SpaceMission :=
  Ok Build_SpaceMission
  <*> Field "mission_id" (constr_str (Some 5%nat) (Some 15%nat)) None
        (kw_mission_id kw)
  <*> Field "mission_name" (constr_str (Some 3%nat) (Some 100%nat)) None
        (kw_mission_name kw)
  <*> Field "destination" (constr_str (Some 3%nat) (Some 50%nat)) None
        (kw_destination kw)
  <*> Field "lauch_date" any (Some now) (kw_lauch_date kw)
  <*> Field "duration_days" (constr_int (Some 1) (Some 3650)) None
        (kw_duration_days kw)
  <*> Field "crew" (constr_list CrewMember_init (Some 1%nat) (Some 12%nat))
        None (kw_crew kw)
  <*> Field "mission_status" any (Some "planned") (kw_mission_status kw)
  <*> Field "budget_millions" (constr_float (Some 1%Q) (Some 10000%Q)) None
        (kw_budget_millions kw).

(** [s[0]], which raises [IndexError] ([None]) on the empty string. *)
Definition first_char (s : string) : option string :=
  match s with
  | EmptyString => None
  | String c _ => Some (String c EmptyString)
  end.

(** The "after" validator of the class. [or] does not evaluate
    [mission_id[0]] when the id is empty. *)
Definition check_model (self : SpaceMission) : Raises SpaceMission :=
  let error := "" in
  let error :=
    if (if len (mission_id self) =? 0 then true
        else match first_char (mission_id self) with
             | Some c => negb (String.eqb c "M")
             | None => true
             end)
    then "Mission ID must start with 'M'"
    else if not_min_rank (crew self)
    then "Must have at least one Commander or Captain"
    else if (duration_days self >? 365) && negb (experience_crew (crew self))
    then
      let error := "Long missions (> 365 days) " in
      error ++ "need 50% experienced crew (5+ years)"
    else if negb (active_crew (crew self))
    then "All crew members must be active"
    else error in
  if negb (String.eqb error "") then ValueError error else Return self.

(** The constructor call [SpaceMission(...)]. *)
Definition SpaceMission_init (now : datetime) (kw : kwargs)
  : Validated SpaceMission :=
  BaseModel (SpaceMission_fields now kw) check_model.

(** *** Specification side: Crew-Member *)

Inductive CrewMember_field : Type :=
| F_member_id | F_name | F_rank | F_age | F_specialization
| F_years_experience | F_is_active.

Definition CrewMember_field_name (f : CrewMember_field) : string :=
  match f with
  | F_member_id => "member_id"
  | F_name => "name"
  | F_rank => "rank"
  | F_age => "age"
  | F_specialization => "specialization"
  | F_years_experience => "years_experience"
  | F_is_active => "is_active"
  end.

Definition CrewMember_all_fields : list CrewMember_field :=
  [F_member_id; F_name; F_rank; F_age; F_specialization;
   F_years_experience; F_is_active].

(** Crew-Member: id 3-10 characters, name 2-50, rank one of cadet,
    officer, lieutenant, captain, commander, age 18-80, specialization
    3-30 characters, years_experience 0-50. *)
Definition CrewMember_within_bounds (kw : CrewMember_kwargs)
  (f : CrewMember_field) : bool :=
  match f with
  | F_member_id => Spec.required (Spec.len_between 3 10) (kw_member_id kw)
  | F_name => Spec.required (Spec.len_between 2 50) (kw_name kw)
  | F_rank =>
      Spec.required
        (fun s => existsb (String.eqb s)
                    ["cadet"; "officer"; "lieutenant"; "captain"; "commander"])
        (kw_rank kw)
  | F_age => Spec.required (Spec.int_between 18 80) (kw_age kw)
  | F_specialization =>
      Spec.required (Spec.len_between 3 30) (kw_specialization kw)
  | F_years_experience =>
      Spec.required (Spec.int_between 0 50) (kw_years_experience kw)
  | F_is_active => true
  end.

Definition CrewMember_supplied (kw : CrewMember_kwargs) (self : CrewMember)
  : Prop :=
  kw_member_id kw = Some (member_id self) /\
  kw_name kw = Some (name self) /\
  kw_rank kw = Some (Rank_value (rank self)) /\
  kw_age kw = Some (age self) /\
  kw_specialization kw = Some (specialization self) /\
  kw_years_experience kw = Some (years_experience self) /\
  is_active self = Spec.or_default true (kw_is_active kw).

Definition CrewMember_constraints (self : CrewMember) : Prop :=
  (3 <= String.length (member_id self) <= 10)%nat /\
  (2 <= String.length (name self) <= 50)%nat /\
  18 <= age self <= 80 /\
  (3 <= String.length (specialization self) <= 30)%nat /\
  0 <= years_experience self <= 50.

(** Crew-Member has no cross-field rule. *)
Definition CrewMember_rules : list (Spec.Rule CrewMember) := [].

Definition CrewMember_valid (self : CrewMember) : Prop :=
  CrewMember_constraints self /\ Spec.all_hold CrewMember_rules self.

(** *** Specification side: the crew aggregate predicates *)

Definition experienced (person : CrewMember) : bool :=
  5 <? years_experience person.

Definition commands (person : CrewMember) : bool :=
  match rank person with
  | commander | captain => true
  | _ => false
  end.

(** How many members of the crew have more than 5 years of experience. *)
Definition nb_experienced (crew : list CrewMember) : nat :=
  List.length (filter experienced crew).

(** *** Specification side: Mission *)

Inductive field : Type :=
| F_mission_id | F_mission_name | F_destination | F_lauch_date
| F_duration_days | F_crew | F_mission_status | F_budget_millions.

Definition field_name (f : field) : string :=
  match f with
  | F_mission_id => "mission_id"
  | F_mission_name => "mission_name"
  | F_destination => "destination"
  | F_lauch_date => "lauch_date"
  | F_duration_days => "duration_days"
  | F_crew => "crew"
  | F_mission_status => "mission_status"
  | F_budget_millions => "budget_millions"
  end.

(** Mission: id 5-15 characters, name 3-100, destination 3-50,
    duration_days 1-3650, crew of 1-12 Crew-Members each within its own
    bounds, budget_millions 1-10000. *)
Definition within_bounds (kw : kwargs) (f : field) : bool :=
  match f with
  | F_mission_id => Spec.required (Spec.len_between 5 15) (kw_mission_id kw)
  | F_mission_name =>
      Spec.required (Spec.len_between 3 100) (kw_mission_name kw)
  | F_destination =>
      Spec.required (Spec.len_between 3 50) (kw_destination kw)
  | F_lauch_date => true
  | F_duration_days =>
      Spec.required (Spec.int_between 1 3650) (kw_duration_days kw)
  | F_crew =>
      Spec.required
        (fun l =>
           ((1 <=? List.length l) && (List.length l <=? 12))%nat
           && forallb
                (fun m => forallb (CrewMember_within_bounds m)
                            CrewMember_all_fields)
                l)
        (kw_crew kw)
  | F_mission_status => true
  | F_budget_millions =>
      Spec.required (Spec.float_between 1%Q 10000%Q) (kw_budget_millions kw)
  end.

Definition supplied (now : datetime) (kw : kwargs) (self : SpaceMission)
  : Prop :=
  kw_mission_id kw = Some (mission_id self) /\
  kw_mission_name kw = Some (mission_name self) /\
  kw_destination kw = Some (destination self) /\
  lauch_date self = Spec.or_default now (kw_lauch_date kw) /\
  kw_duration_days kw = Some (duration_days self) /\
  (exists members, kw_crew kw = Some members /\
                   Forall2 CrewMember_supplied members (crew self)) /\
  mission_status self = Spec.or_default "planned" (kw_mission_status kw) /\
  kw_budget_millions kw = Some (budget_millions self).

Definition constraints (self : SpaceMission) : Prop :=
  (5 <= String.length (mission_id self) <= 15)%nat /\
  (3 <= String.length (mission_name self) <= 100)%nat /\
  (3 <= String.length (destination self) <= 50)%nat /\
  1 <= duration_days self <= 3650 /\
  (1 <= List.length (crew self) <= 12)%nat /\
  Forall CrewMember_valid (crew self) /\
  (1 <= budget_millions self /\ budget_millions self <= 10000)%Q.

(** The four rules of a Mission, in their order: the id starts with "M";
    some member is a commander or a captain; a mission of more than 365
    days has at least 50% of its crew with more than 5 years of
    experience; every member is active. *)
Definition rules : list (Spec.Rule SpaceMission) :=
  [ {| Spec.holds := fun m => prefix "M" (mission_id m);
       Spec.message := "Mission ID must start with 'M'" |};
    {| Spec.holds := fun m => existsb commands (crew m);
       Spec.message := "Must have at least one Commander or Captain" |};
    {| Spec.holds := fun m =>
         implb (365 <? duration_days m)
               (List.length (crew m) <=? 2 * nb_experienced (crew m))%nat;
       Spec.message :=
         "Long missions (> 365 days) need 50% experienced crew (5+ years)" |};
    {| Spec.holds := fun m => forallb is_active (crew m);
       Spec.message := "All crew members must be active" |} ].

Definition valid (self : SpaceMission) : Prop :=
  constraints self /\ Spec.all_hold rules self.

(** The crews and missions of [main]. *)
Definition member (id nm rk : string) (a : Z) (spec : string) (y : Z)
  : CrewMember_kwargs := {|
  kw_member_id := Some id;
  kw_name := Some nm;
  kw_rank := Some rk;
  kw_age := Some a;
  kw_specialization := Some spec;
  kw_years_experience := Some y;
  kw_is_active := None
|}.

Definition mission (id : string) (members : list CrewMember_kwargs)
  : kwargs := {|
  kw_mission_id := Some id;
  kw_mission_name := Some "Mars Colony Establishment";
  kw_destination := Some "Mars";
  kw_lauch_date := None;
  kw_duration_days := Some 900;
  kw_crew := Some members;
  kw_mission_status := None;
  kw_budget_millions := Some 2500%Q
|}.

Definition mission1 : kwargs :=
  mission "M2024_MARS"
    [ member "Person005" "Sarah Connor" "commander" 37 "Mission Command" 5;
      member "Person006" "John Smith" "lieutenant" 63 "Navigation" 17;
      member "Person007" "Alice Johnson" "officer" 58 "Engineering" 20 ].

Definition mission2 : kwargs :=
  mission "M2026_MARS"
    [ member "Person005" "Sarah Connor" "cadet" 37 "Mission Command" 5;
      member "Person006" "John Smith" "lieutenant" 63 "Navigation" 17;
      member "Person007" "Alice Johnson" "officer" 58 "Engineering" 21 ].

Definition member_record (id nm : string) (rk : Rank) (a : Z)
  (spec : string) (y : Z) : CrewMember := {|
  member_id := id;
  name := nm;
  rank := rk;
  age := a;
  specialization := spec;
  years_experience := y;
  is_active := true
|}.

(** The crews of the two missions, once constructed. *)
Definition crew1 : list CrewMember :=
  [ member_record "Person005" "Sarah Connor" commander 37 "Mission Command" 5;
    member_record "Person006" "John Smith" lieutenant 63 "Navigation" 17;
    member_record "Person007" "Alice Johnson" officer 58 "Engineering" 20 ].

Definition crew2 : list CrewMember :=
  [ member_record "Person005" "Sarah Connor" cadet 37 "Mission Command" 5;
    member_record "Person006" "John Smith" lieutenant 63 "Navigation" 17;
    member_record "Person007" "Alice Johnson" officer 58 "Engineering" 21 ].

(** A crew of three with one experienced member. *)
Definition crew3 : list CrewMember :=
  [ member_record "Person005" "Sarah Connor" commander 37 "Mission Command" 5;
    member_record "Person006" "John Smith" lieutenant 63 "Navigation" 17;
    member_record "Person007" "Alice Johnson" officer 58 "Engineering" 2 ].

(** The record that the second mission assembles to, at time [now]. *)
Definition mission2_record (now : datetime) : SpaceMission := {|
  mission_id := "M2026_MARS";
  mission_name := "Mars Colony Establishment";
  destination := "Mars";
  lauch_date := now;
  duration_days := 900;
  crew := crew2;
  mission_status := "planned";
  budget_millions := 2500%Q
|}.

(** A member who is too young, and nothing else out of bounds. *)
Definition young_member : CrewMember_kwargs :=
  member "Person008" "Tim Drake" "cadet" 17 "Logistics" 0.

End space_crew.

(** ** What the three files print

    [display_contact], [display_mission] and the [try]/[except] blocks of
    the [main] functions. How Python writes a rounded [float] and a member
    of an [Enum] is left as a parameter, and so is the text that pydantic
    gives to the errors of the field-constraint layer. *)

Module Output.
Import Py Pydantic.

(** [s[n:]] *)
Definition slice_from (n : nat) (s : string) : string :=
  substring n (String.length s - n) s.

Section Printing.

(** The message of an error of the field-constraint layer. *)
Variable constraint_msg : ErrorDetails -> string.

(** [str(round(x, ndigits))] for a [float]. *)
Variable str_round : Q -> Z -> string.

(** [str(t)] and [format(r)] for the members of the two enumerations. *)
Variable str_ContactType : alien_contact.ContactType -> string.
Variable format_Rank : space_crew.Rank -> string.

(** [e["msg"]]: pydantic announces the [ValueError] of a validator with
    "Value error, ". *)
Definition msg (e : ErrorDetails) : string :=
  match type e with
  | value_error m => "Value error, " ++ m
  | _ => constraint_msg e
  end.

(** [e.errors()[0]["msg"]], which raises [IndexError] ([None]) when there
    is no error. *)
Definition first_msg (errors : list ErrorDetails) : option string :=
  match errors with
  | [] => None
  | e :: _ => Some (msg e)
  end.

(** The lines that [display_contact] prints. *)
Definition display_contact (contact : alien_contact.AlienContact)
  : list string :=
  List.app
   [ "ID: " ++ alien_contact.contact_id contact;
     "Type: " ++ str_ContactType (alien_contact.contact_type contact);
     "Location: " ++ alien_contact.location contact;
     "Signal: " ++ str_round (alien_contact.signal_strength contact) 1
                ++ "/10";
     "Duration: "
       ++ alien_contact.convert_duration
            (alien_contact.duration_minutes contact);
     "Witness: " ++ str (alien_contact.witness_count contact) ]
   match alien_contact.message_received contact with
   | Some m => [ "Message: '" ++ m ++ "'" ]
   | None => []
   end.

(** The lines that [display_mission] prints. *)
Definition display_mission (mission : space_crew.SpaceMission)
  : list string :=
  let plurial :=
    if space_crew.duration_days mission >? 1 then "s" else "" in
  List.app
   [ "Mission: " ++ space_crew.mission_name mission;
     "ID: " ++ space_crew.mission_id mission;
     "Destination: " ++ space_crew.destination mission;
     "Duration: " ++ str (space_crew.duration_days mission)
                  ++ " day" ++ plurial;
     "Budget: $" ++ str_round (space_crew.budget_millions mission) 2 ++ "M";
     "Crew size: "
       ++ str (Z.of_nat (List.length (space_crew.crew mission)));
     "Crew members:" ]
   (map (fun person =>
           "- " ++ space_crew.name person
                ++ " (" ++ format_Rank (space_crew.rank person) ++ ") - "
                ++ space_crew.specialization person)
        (space_crew.crew mission)).

(** A [try]/[except] block of [main] in ex1: the lines it prints, or [None]
    when the handler itself raises. *)
Definition try_contact (now : datetime) (kw : alien_contact.kwargs)
  : option (list string) :=
  match alien_contact.AlienContact_init now kw with
  | Ok contact => Some ("Valid contact report:" :: display_contact contact)
  | ValidationError errors =>
      match first_msg errors with
      | Some m => Some [ "Expected validation error:"; slice_from 13 m ]
      | None => None
      end
  end.

(** A [try]/[except] block of [main] in ex2. *)
Definition try_mission (now : datetime) (kw : space_crew.kwargs)
  : option (list string) :=
  match space_crew.SpaceMission_init now kw with
  | Ok mission => Some ("Valid mission created:" :: display_mission mission)
  | ValidationError errors =>
      match first_msg errors with
      | Some m => Some [ "Expected validation error:"; slice_from 13 m ]
      | None => None
      end
  end.

End Printing.

End Output.

(** ** The order of the field declarations *)

Module Declaration.

Definition station_index (f : space_station.field) : nat :=
  match f with
  | space_station.F_station_id => 0
  | space_station.F_name => 1
  | space_station.F_crew_size => 2
  | space_station.F_power_level => 3
  | space_station.F_oxygen_level => 4
  | space_station.F_last_maintenance => 5
  | space_station.F_is_operational => 6
  | space_station.F_notes => 7
  end.

Definition contact_index (f : alien_contact.field) : nat :=
  match f with
  | alien_contact.F_contact_id => 0
  | alien_contact.F_timestamp => 1
  | alien_contact.F_location => 2
  | alien_contact.F_contact_type => 3
  | alien_contact.F_signal_strength => 4
  | alien_contact.F_duration_minutes => 5
  | alien_contact.F_witness_count => 6
  | alien_contact.F_message_received => 7
  | alien_contact.F_is_verified => 8
  end.

Definition member_index (f : space_crew.CrewMember_field) : nat :=
  match f with
  | space_crew.F_member_id => 0
  | space_crew.F_name => 1
  | space_crew.F_rank => 2
  | space_crew.F_age => 3
  | space_crew.F_specialization => 4
  | space_crew.F_years_experience => 5
  | space_crew.F_is_active => 6
  end.

Definition mission_index (f : space_crew.field) : nat :=
  match f with
  | space_crew.F_mission_id => 0
  | space_crew.F_mission_name => 1
  | space_crew.F_destination => 2
  | space_crew.F_lauch_date => 3
  | space_crew.F_duration_days => 4
  | space_crew.F_crew => 5
  | space_crew.F_mission_status => 6
  | space_crew.F_budget_millions => 7
  end.

(** A station with two fields out of bounds: 25 is no crew size and 150 no
    power level. *)
Definition station3 : space_station.kwargs := {|
  space_station.kw_station_id := Some "100SSI";
  space_station.kw_name := Some "Station Space International";
  space_station.kw_crew_size := Some 25;
  space_station.kw_power_level := Some 150%Q;
  space_station.kw_oxygen_level := Some (923 # 10)%Q;
  space_station.kw_last_maintenance := None;
  space_station.kw_is_operational := Some false;
  space_station.kw_notes := None
|}.

(** A physical contact for which [is_verified] is not passed, and a strong
    signal for which no message is passed. *)
Definition physical_contact : alien_contact.kwargs := {|
  alien_contact.kw_contact_id := Some "AC_2024_002";
  alien_contact.kw_timestamp := None;
  alien_contact.kw_location := Some "Roswell, New Mexico";
  alien_contact.kw_contact_type := Some "physical";
  alien_contact.kw_signal_strength := Some 5%Q;
  alien_contact.kw_duration_minutes := Some 60;
  alien_contact.kw_witness_count := Some 2;
  alien_contact.kw_message_received := None;
  alien_contact.kw_is_verified := None
|}.

Definition strong_contact : alien_contact.kwargs := {|
  alien_contact.kw_contact_id := Some "AC_2024_003";
  alien_contact.kw_timestamp := None;
  alien_contact.kw_location := Some "Roswell, New Mexico";
  alien_contact.kw_contact_type := Some "radio";
  alien_contact.kw_signal_strength := Some 9%Q;
  alien_contact.kw_duration_minutes := Some 60;
  alien_contact.kw_witness_count := Some 2;
  alien_contact.kw_message_received := None;
  alien_contact.kw_is_verified := None
|}.

(** The first mission of [main] with its last member not active, as input
    and as record. *)
Definition inactive_member : space_crew.CrewMember_kwargs := {|
  space_crew.kw_member_id := Some "Person007";
  space_crew.kw_name := Some "Alice Johnson";
  space_crew.kw_rank := Some "officer";
  space_crew.kw_age := Some 58;
  space_crew.kw_specialization := Some "Engineering";
  space_crew.kw_years_experience := Some 20;
  space_crew.kw_is_active := Some false
|}.

Definition mission3 : space_crew.kwargs :=
  space_crew.mission "M2024_MARS"
    [ space_crew.member "Person005" "Sarah Connor" "commander" 37
        "Mission Command" 5;
      space_crew.member "Person006" "John Smith" "lieutenant" 63
        "Navigation" 17;
      inactive_member ].

Definition crew3_inactive : list space_crew.CrewMember :=
  [ space_crew.member_record "Person005" "Sarah Connor" space_crew.commander
      37 "Mission Command" 5;
    space_crew.member_record "Person006" "John Smith" space_crew.lieutenant
      63 "Navigation" 17;
    {| space_crew.member_id := "Person007";
       space_crew.name := "Alice Johnson";
       space_crew.rank := space_crew.officer;
       space_crew.age := 58;
       space_crew.specialization := "Engineering";
       space_crew.years_experience := 20;
       space_crew.is_active := false |} ].

Definition mission3_record (now : Z) : space_crew.SpaceMission := {|
  space_crew.mission_id := "M2024_MARS";
  space_crew.mission_name := "Mars Colony Establishment";
  space_crew.destination := "Mars";
  space_crew.lauch_date := now;
  space_crew.duration_days := 900;
  space_crew.crew := crew3_inactive;
  space_crew.mission_status := "planned";
  space_crew.budget_millions := 2500%Q
|}.

(** The first error of a failure names [field]. *)
Definition first_error_names {R : Type} (field : string)
  (res : Pydantic.Validated R) : Prop :=
  exists e es,
    res = Pydantic.ValidationError (e :: es) /\ Spec.names_field field e.

End Declaration.

(* ================================================================== *)
(** * Properties *)
(* ================================================================== *)

(** ** The validation layer *)

Section ValidationLayer.
Import Py Pydantic.

Lemma ap_Ok_inv (A B : Type) (f : Validated (A -> B)) (x : Validated A) b :
  f <*> x = Ok b -> exists g a, f = Ok g /\ x = Ok a /\ b = g a.
Proof.
  destruct f as [g|es1], x as [a|es2]; simpl; intros H;
    try discriminate H.
  injection H as <-. now exists g, a.
Qed.

Lemma ap_sound (A B : Type) (f : Validated (A -> B)) (x : Validated A) :
  Spec.sound f -> Spec.sound x -> Spec.sound (f <*> x).
Proof.
  destruct f as [g|es1], x as [a|es2]; simpl; auto.
  intros [Hne1 Hall1] [Hne2 Hall2]. split.
  - destruct es1; [contradiction|discriminate].
  - apply Forall_app. now split.
Qed.

Lemma under_Ok_inv (A : Type) item (v : Validated A) a :
  under item v = Ok a -> v = Ok a.
Proof. destruct v; simpl; congruence. Qed.

Lemma under_constraint_errors item es :
  Spec.constraint_errors es ->
  Spec.constraint_errors
    (map (fun e => {| type := type e; loc := item :: loc e |}) es).
Proof.
  intros [Hne Hall]. split.
  - destruct es; [contradiction|discriminate].
  - apply Forall_map. eapply Forall_impl; [|exact Hall].
    intros e He msg. simpl. apply He.
Qed.

Lemma under_field_errors name es :
  Spec.constraint_errors es ->
  Spec.field_errors name
    (map (fun e => {| type := type e; loc := Key name :: loc e |}) es).
Proof.
  intros [Hne Hall]. split.
  - destruct es; [contradiction|discriminate].
  - apply Forall_map. eapply Forall_impl; [|exact Hall].
    intros e He. split; [reflexivity|]. intros msg. simpl. apply He.
Qed.

Lemma field_errors_constraint name es :
  Spec.field_errors name es -> Spec.constraint_errors es.
Proof.
  intros [Hne Hall]. split; [exact Hne|].
  eapply Forall_impl; [|exact Hall]. now intros e [_ He].
Qed.

Lemma fail_constraint_errors t :
  (forall msg, t <> value_error msg) ->
  Spec.constraint_errors [ {| type := t; loc := [] |} ].
Proof.
  intros Ht. split; [discriminate|].
  constructor; [|constructor]. exact Ht.
Qed.

(** *** What each constraint accepts *)

Lemma constr_str_decides lo hi :
  Spec.decides (Spec.len_between lo hi) (fun a b => b = a)
               (constr_str (Some lo) (Some hi)).
Proof.
  intros s. unfold Spec.len_between, constr_str, below, above.
  destruct (Nat.leb_spec lo (String.length s)),
           (Nat.leb_spec (String.length s) hi),
           (Nat.ltb_spec (String.length s) lo),
           (Nat.ltb_spec hi (String.length s)); simpl; try lia;
    try (now exists s);
    eexists; (split; [reflexivity|]);
    apply fail_constraint_errors; discriminate.
Qed.

Lemma constr_str_max_decides hi :
  Spec.decides
    (fun n => match n with
              | Some s => (String.length s <=? hi)%nat
              | None => true
              end)
    (fun a b => b = a)
    (nullable (constr_str None (Some hi))).
Proof.
  intros [s|]; simpl; [|now exists None].
  unfold constr_str, below, above.
  destruct (Nat.leb_spec (String.length s) hi),
           (Nat.ltb_spec hi (String.length s)); simpl; try lia.
  - now exists (Some s).
  - eexists; (split; [reflexivity|]).
    apply fail_constraint_errors; discriminate.
Qed.

Lemma constr_int_decides lo hi :
  Spec.decides (Spec.int_between lo hi) (fun a b => b = a)
               (constr_int (Some lo) (Some hi)).
Proof.
  intros n. unfold Spec.int_between, constr_int, below, above.
  destruct (Z.leb_spec lo n), (Z.leb_spec n hi),
           (Z.ltb_spec n lo), (Z.ltb_spec hi n); simpl; try lia;
    try (now exists n);
    eexists; (split; [reflexivity|]);
    apply fail_constraint_errors; discriminate.
Qed.

Lemma constr_float_decides lo hi :
  Spec.decides (Spec.float_between lo hi) (fun a b => b = a)
               (constr_float (Some lo) (Some hi)).
Proof.
  intros x.
  unfold Spec.float_between, constr_float, below, above, flt, fgt.
  destruct (Qle_bool lo x), (Qle_bool x hi); simpl;
    try (now exists x);
    eexists; (split; [reflexivity|]);
    apply fail_constraint_errors; discriminate.
Qed.

(** *** What a declared field returns *)

Lemma Field_required (A B : Type) ok rel (v : A -> Validated B) name arg :
  Spec.decides ok rel v ->
  Spec.required_outcome ok rel name arg (Field name v None arg).
Proof.
  intros Hv. unfold Spec.required_outcome.
  destruct arg as [a|]; simpl.
  - specialize (Hv a). destruct (ok a).
    + destruct Hv as (b & -> & Hrel). now exists a, b.
    + destruct Hv as (es & -> & Hes). simpl.
      eexists. split; [reflexivity|]. now apply under_field_errors.
  - eexists. split; [reflexivity|].
    apply (under_field_errors name (es := [ {| type := missing; loc := [] |} ])).
    apply fail_constraint_errors. discriminate.
Qed.

Lemma Field_defaulted (A B : Type) ok rel (v : A -> Validated B) name d arg :
  Spec.decides ok rel v ->
  Spec.defaulted_outcome ok rel name d arg (Field name v (Some d) arg).
Proof.
  intros Hv. unfold Spec.defaulted_outcome.
  destruct arg as [a|]; simpl.
  - specialize (Hv a). destruct (ok a).
    + destruct Hv as (b & -> & Hrel). now exists b.
    + destruct Hv as (es & -> & Hes). simpl.
      eexists. split; [reflexivity|]. now apply under_field_errors.
  - now exists d.
Qed.

(** A field without constraint always has a value. *)
Lemma Field_any (A : Type) name (d : A) arg :
  Field name any (Some d) arg = Ok (Spec.or_default d arg).
Proof. now destruct arg. Qed.

Lemma required_outcome_sound (A B : Type) ok rel name arg
  (res : Validated B) :
  Spec.required_outcome (A := A) ok rel name arg res -> Spec.sound res.
Proof.
  unfold Spec.required_outcome. destruct (Spec.required ok arg).
  - now intros (a & b & _ & -> & _).
  - intros (es & -> & Hes). simpl. eapply field_errors_constraint, Hes.
Qed.

End ValidationLayer.

(** ** The rule engine *)

Section RuleEngine.
Import Py Pydantic.

Variable R : Type.
Variable rules : list (Spec.Rule R).

Lemma first_failing_None self :
  Spec.first_failing rules self = None <-> Spec.all_hold rules self.
Proof.
  unfold Spec.all_hold. induction rules as [|r rs IH]; simpl.
  - split; [constructor|reflexivity].
  - destruct (Spec.holds r self) eqn:Hr.
    + rewrite IH. split; [now constructor|]. intros H.
      now apply Forall_inv_tail in H.
    + split; [discriminate|]. intros H. apply Forall_inv in H. congruence.
Qed.

Lemma first_failing_at_Some self k r :
  Spec.first_failing_at rules self k r ->
  Spec.first_failing rules self = Some (Spec.message r).
Proof.
  unfold Spec.first_failing_at. revert k.
  induction rules as [|r0 rs IH]; intros k (Hnth & Hr & Hbefore).
  - destruct k; discriminate Hnth.
  - destruct k as [|k]; simpl in *.
    + injection Hnth as ->. now rewrite Hr.
    + rewrite (Hbefore 0%nat r0); [|lia|reflexivity].
      apply (IH k). repeat split; auto.
      intros j r' Hj Hnth'. apply (Hbefore (S j) r'); [lia|exact Hnth'].
Qed.

(** The "after" validator runs the rules in order. *)
Variable after : R -> Raises R.
Hypothesis after_rules :
  forall self,
    after self = match Spec.first_failing rules self with
                 | None => Return self
                 | Some msg => ValueError msg
                 end.

Lemma BaseModel_rules fields self :
  fields = Ok self ->
  BaseModel fields after
  = match Spec.first_failing rules self with
    | None => Ok self
    | Some msg => Spec.cross_field_violation msg
    end.
Proof.
  intros ->. unfold BaseModel. rewrite after_rules.
  now destruct (Spec.first_failing rules self).
Qed.

Lemma BaseModel_Ok_inv fields self :
  BaseModel fields after = Ok self ->
  fields = Ok self /\ Spec.all_hold rules self.
Proof.
  destruct fields as [self0|es]; [|discriminate].
  rewrite (@BaseModel_rules _ self0 eq_refl).
  destruct (Spec.first_failing rules self0) eqn:Hff; [discriminate|].
  intros H. injection H as <-. split; [reflexivity|].
  now apply first_failing_None.
Qed.

End RuleEngine.

(** A model without rules and without "after" validator. *)
Lemma no_validator_rules (R : Type) (self : R) :
  Pydantic.no_validator self
  = match Spec.first_failing [] self with
    | None => Py.Return self
    | Some msg => Py.ValueError msg
    end.
Proof. reflexivity. Qed.

(** ** Tactics for the field declarations of a class *)

(** Split [fields = Ok self] into one equation per field. *)
Ltac ap_inv H :=
  lazymatch type of H with
  | _ <*> _ = Pydantic.Ok _ =>
      let g := fresh "g" in
      let a := fresh "a" in
      let Hf := fresh "Hf" in
      let Hx := fresh "Hx" in
      let Hb := fresh "Hb" in
      apply ap_Ok_inv in H; destruct H as (g & a & Hf & Hx & Hb);
      ap_inv Hf
  | Pydantic.Ok _ = Pydantic.Ok _ => injection H as H
  end.

(** Use the outcome [O] of a field that is within its bounds ([W]). *)
Ltac required_ok O W :=
  unfold Spec.required_outcome in O;
  lazymatch type of O with
  | if ?c then _ else _ => replace c with true in O by (symmetry; exact W)
  end;
  let a := fresh "a" in
  let b := fresh "b" in
  let Ha := fresh "Ha" in
  let Hrel := fresh "Hrel" in
  destruct O as (a & b & Ha & O & Hrel).

Ltac defaulted_ok O W :=
  unfold Spec.defaulted_outcome in O;
  lazymatch type of O with
  | if ?c then _ else _ => replace c with true in O by (symmetry; exact W)
  end;
  let b := fresh "b" in
  let Hrel := fresh "Hrel" in
  destruct O as (b & O & Hrel).

(** Use the outcome [O] of a field that is out of bounds ([W]). *)
Ltac field_bad O W :=
  unfold Spec.required_outcome, Spec.defaulted_outcome in O;
  lazymatch type of O with
  | if ?c then _ else _ => replace c with false in O by (symmetry; exact W)
  end;
  let es := fresh "es" in
  let Hes := fresh "Hes" in
  destruct O as (es & O & Hes).

(** The field of outcome [O] has a value: so it is within its bounds. *)
Ltac outcome_inv O :=
  lazymatch type of O with
  | Spec.required_outcome _ _ _ _ ?res =>
      lazymatch goal with
      | Hx : res = Pydantic.Ok _ |- _ =>
          unfold Spec.required_outcome in O;
          lazymatch type of O with
          | if ?c then _ else _ =>
              let W := fresh "W" in
              let a := fresh "a" in
              let b := fresh "b" in
              let Ha := fresh "Ha" in
              let Hrel := fresh "Hrel" in
              let es := fresh "es" in
              destruct c eqn:W;
              [ destruct O as (a & b & Ha & O & Hrel);
                rewrite Hx in O; injection O as <-
              | destruct O as (es & O & _); rewrite Hx in O; discriminate O ]
          end
      end
  | Spec.defaulted_outcome _ _ _ _ _ ?res =>
      lazymatch goal with
      | Hx : res = Pydantic.Ok _ |- _ =>
          unfold Spec.defaulted_outcome in O;
          lazymatch type of O with
          | if ?c then _ else _ =>
              let W := fresh "W" in
              let b := fresh "b" in
              let Hrel := fresh "Hrel" in
              let es := fresh "es" in
              destruct c eqn:W;
              [ destruct O as (b & O & Hrel);
                rewrite Hx in O; injection O as <-
              | destruct O as (es & O & _); rewrite Hx in O; discriminate O ]
          end
      end
  end.

(** Settle the outcome [O] of field [F] when [Hf] says that [f] is the one
    field out of bounds and [H] that every other field is within bounds. *)
Ltac settle O F H Hf :=
  first [ required_ok O (H F ltac:(discriminate))
        | defaulted_ok O (H F ltac:(discriminate))
        | field_bad O Hf ].

(** Turn the bound [W] of a supplied field ([E]) into a proposition. *)
Ltac bound_of W E :=
  simpl in W; rewrite E in W; simpl in W.

Lemma string_append_assoc (s1 s2 s3 : string) :
  (s1 ++ s2) ++ s3 = s1 ++ (s2 ++ s3).
Proof.
  induction s1 as [|c s1 IH]; simpl; [reflexivity|]. now rewrite IH.
Qed.

(** [prefix] one character at a time. *)
Lemma prefix_String c p a s :
  prefix (String c p) (String a s) = Ascii.eqb c a && prefix p s.
Proof.
  change (prefix (String c p) (String a s))
    with (if ascii_dec c a then prefix p s else false).
  destruct (ascii_dec c a) as [->|Hne].
  - now rewrite Ascii.eqb_refl.
  - now rewrite (proj2 (Ascii.eqb_neq c a) Hne).
Qed.

(** Bounds as booleans and as propositions. *)
Lemma len_between_spec lo hi s :
  Spec.len_between lo hi s = true <-> (lo <= String.length s <= hi)%nat.
Proof.
  unfold Spec.len_between.
  rewrite andb_true_iff, !Nat.leb_le. tauto.
Qed.

Lemma int_between_spec lo hi n :
  Spec.int_between lo hi n = true <-> lo <= n <= hi.
Proof.
  unfold Spec.int_between. rewrite andb_true_iff, !Z.leb_le. tauto.
Qed.

Lemma float_between_spec lo hi x :
  Spec.float_between lo hi x = true <-> (lo <= x /\ x <= hi)%Q.
Proof.
  unfold Spec.float_between. rewrite andb_true_iff, !Qle_bool_iff. tauto.
Qed.

(** ** Station *)

Section Station.
Import Py Pydantic space_station.

Ltac station_outcomes kw :=
  pose proof (Field_required "station_id" (kw_station_id kw)
                (constr_str_decides 3 10)) as O1;
  pose proof (Field_required "name" (kw_name kw)
                (constr_str_decides 1 50)) as O2;
  pose proof (Field_required "crew_size" (kw_crew_size kw)
                (constr_int_decides 1 20)) as O3;
  pose proof (Field_required "power_level" (kw_power_level kw)
                (constr_float_decides 0%Q 100%Q)) as O4;
  pose proof (Field_required "oxygen_level" (kw_oxygen_level kw)
                (constr_float_decides 0%Q 100%Q)) as O5;
  pose proof (Field_defaulted "notes" None (kw_notes kw)
                (constr_str_max_decides 200)) as O8.

Lemma SpaceStation_fields_within now kw :
  (forall f, within_bounds kw f = true) ->
  exists self, SpaceStation_fields now kw = Ok self /\ supplied now kw self.
Proof.
  intros H. station_outcomes kw.
  required_ok O1 (H F_station_id). required_ok O2 (H F_name).
  required_ok O3 (H F_crew_size). required_ok O4 (H F_power_level).
  required_ok O5 (H F_oxygen_level). defaulted_ok O8 (H F_notes).
  unfold SpaceStation_fields.
  rewrite O1, O2, O3, O4, O5, O8, !Field_any. simpl.
  eexists. split; [reflexivity|].
  unfold supplied; simpl. subst.
  repeat split; try assumption.
  destruct (kw_notes kw); simpl; congruence.
Qed.

Lemma SpaceStation_fields_Ok_inv now kw self :
  SpaceStation_fields now kw = Ok self ->
  (forall f, within_bounds kw f = true) /\ supplied now kw self.
Proof.
  intros H. unfold SpaceStation_fields in H. ap_inv H.
  rewrite ?Field_any in *. station_outcomes kw.
  outcome_inv O1. outcome_inv O2. outcome_inv O3. outcome_inv O4.
  outcome_inv O5. outcome_inv O8.
  repeat match goal with E : Ok _ = Ok _ |- _ => injection E as E end.
  subst. split.
  - intros []; simpl; auto.
  - unfold supplied; simpl. repeat split; try assumption.
    destruct (kw_notes kw); simpl; congruence.
Qed.

Lemma SpaceStation_fields_one_bad now kw f :
  within_bounds kw f = false ->
  (forall g, g <> f -> within_bounds kw g = true) ->
  exists es, SpaceStation_fields now kw = ValidationError es /\
             Spec.field_errors (field_name f) es.
Proof.
  intros Hf H. station_outcomes kw.
  unfold SpaceStation_fields. rewrite !Field_any.
  destruct f; try discriminate Hf;
    settle O1 F_station_id H Hf; settle O2 F_name H Hf;
    settle O3 F_crew_size H Hf; settle O4 F_power_level H Hf;
    settle O5 F_oxygen_level H Hf; settle O8 F_notes H Hf;
    rewrite O1, O2, O3, O4, O5, O8; simpl;
    eexists; (split; [reflexivity|assumption]).
Qed.

Lemma SpaceStation_constraints now kw self :
  (forall f, within_bounds kw f = true) -> supplied now kw self ->
  constraints self.
Proof.
  intros H (E1 & E2 & E3 & E4 & E5 & _ & _ & E8).
  pose proof (H F_station_id) as W1. pose proof (H F_name) as W2.
  pose proof (H F_crew_size) as W3. pose proof (H F_power_level) as W4.
  pose proof (H F_oxygen_level) as W5. pose proof (H F_notes) as W8.
  bound_of W1 E1. bound_of W2 E2. bound_of W3 E3. bound_of W4 E4.
  bound_of W5 E5.
  apply len_between_spec in W1, W2. apply int_between_spec in W3.
  apply float_between_spec in W4, W5.
  repeat split; try tauto.
  intros s Hs. rewrite E8 in Hs. simpl in W8.
  destruct (kw_notes kw) as [[s'|]|]; simpl in *; try discriminate Hs.
  injection Hs as ->. now apply Nat.leb_le.
Qed.

(** Construction returns valid records only. *)
Lemma SpaceStation_init_valid now kw self :
  SpaceStation_init now kw = Ok self -> valid self.
Proof.
  intros H. unfold SpaceStation_init in H.
  apply (@BaseModel_Ok_inv _ rules _ (@no_validator_rules _)) in H.
  destruct H as [H Hrules].
  apply SpaceStation_fields_Ok_inv in H. destruct H as [Hw Hs].
  split; [|exact Hrules]. eapply SpaceStation_constraints; eassumption.
Qed.

(** Valid input makes a record of the supplied values. *)
Lemma SpaceStation_init_within now kw :
  (forall f, within_bounds kw f = true) ->
  exists self, supplied now kw self /\
               (Spec.all_hold rules self ->
                SpaceStation_init now kw = Ok self).
Proof.
  intros H. destruct (SpaceStation_fields_within now kw H) as (self & Hf & Hs).
  exists self. split; [exact Hs|]. intros _.
  unfold SpaceStation_init. now rewrite Hf.
Qed.

(** One field out of bounds: the failure names it. *)
Lemma SpaceStation_init_one_bad now kw f :
  within_bounds kw f = false ->
  (forall g, g <> f -> within_bounds kw g = true) ->
  exists es, SpaceStation_init now kw = ValidationError es /\
             Spec.field_errors (field_name f) es.
Proof.
  intros Hf H.
  destruct (SpaceStation_fields_one_bad now kw Hf H) as (es & He & Hes).
  exists es. split; [|exact Hes].
  unfold SpaceStation_init. now rewrite He.
Qed.

End Station.

(** ** Contact *)

Section Contact.
Import Py Pydantic alien_contact.

Lemma ContactType_decides :
  Spec.decides
    (fun s => existsb (String.eqb s)
                ["radio"; "visual"; "physical"; "telepathic"])
    (fun s t => s = ContactType_value t)
    (enum_of ContactType_members ContactType_value).
Proof.
  intros s. unfold enum_of, ContactType_members.
  cbn [find existsb ContactType_value]. rewrite !(String.eqb_sym s).
  destruct (String.eqb_spec "radio" s) as [<-|_];
    [now exists radio|].
  destruct (String.eqb_spec "visual" s) as [<-|_];
    [now exists visual|].
  destruct (String.eqb_spec "physical" s) as [<-|_];
    [now exists physical|].
  destruct (String.eqb_spec "telepathic" s) as [<-|_];
    [now exists telepathic|].
  cbn [orb]. eexists. split; [reflexivity|].
  apply fail_constraint_errors. discriminate.
Qed.

(** The test of the first branch says that the id does not start with
    "AC". *)
Lemma not_AC s :
  (len s <? 2) || negb (String.eqb (slice_to 2 s) "AC")
  = negb (prefix "AC" s).
Proof.
  destruct s as [|a [|b s]].
  - reflexivity.
  - rewrite prefix_String. cbn [prefix]. now rewrite andb_false_r.
  - rewrite !prefix_String. cbn [prefix]. unfold len, slice_to.
    cbn [String.length substring].
    destruct (Z.ltb_spec (Z.of_nat (S (S (String.length s)))) 2) as [Hlt|_];
      [lia|].
    replace (substring 0 0 s) with "" by now destruct s.
    cbn [String.eqb orb].
    rewrite (Ascii.eqb_sym a), (Ascii.eqb_sym b).
    replace (prefix "" s) with true by now destruct s.
    now destruct (Ascii.eqb "A" a), (Ascii.eqb "C" b).
Qed.

Lemma fgt_strictly_above x bound : fgt x bound = strictly_above bound x.
Proof.
  unfold fgt, strictly_above.
  destruct (Qle_bool x bound) eqn:E; simpl.
  - apply Qle_bool_iff in E.
    destruct (bound ?= x)%Q eqn:C; try reflexivity.
    apply Qlt_alt in C. exfalso. exact (Qle_not_lt _ _ E C).
  - assert (bound < x)%Q as Hlt.
    { apply Qnot_le_lt. intros Hle. apply Qle_bool_iff in Hle. congruence. }
    apply Qlt_alt in Hlt. change ((bound ?= x)%Q = Lt) in Hlt.
    now rewrite Hlt.
Qed.

(** The [elif] chain of [check_model] reports the first failing rule. *)
Lemma AlienContact_check_model_rules self :
  check_model self
  = match Spec.first_failing rules self with
    | None => Return self
    | Some msg => ValueError msg
    end.
Proof.
  unfold check_model. rewrite not_AC, fgt_strictly_above.
  rewrite (Z.ltb_antisym 3 (witness_count self)).
  unfold rules, Spec.first_failing, Spec.holds, Spec.message.
  destruct (prefix "AC" (contact_id self)); [|reflexivity].
  destruct (contact_type self), (is_verified self),
           (3 <=? witness_count self),
           (strictly_above 7 (signal_strength self)),
           (message_received self); reflexivity.
Qed.

Ltac contact_outcomes kw :=
  pose proof (Field_required "contact_id" (kw_contact_id kw)
                (constr_str_decides 5 15)) as O1;
  pose proof (Field_required "location" (kw_location kw)
                (constr_str_decides 3 100)) as O3;
  pose proof (Field_required "contact_type" (kw_contact_type kw)
                ContactType_decides) as O4;
  pose proof (Field_required "signal_strength" (kw_signal_strength kw)
                (constr_float_decides 0%Q 10%Q)) as O5;
  pose proof (Field_required "duration_minutes" (kw_duration_minutes kw)
                (constr_int_decides 1 1440)) as O6;
  pose proof (Field_required "witness_count" (kw_witness_count kw)
                (constr_int_decides 1 100)) as O7.

Lemma AlienContact_fields_within now kw :
  (forall f, within_bounds kw f = true) ->
  exists self, AlienContact_fields now kw = Ok self /\ supplied now kw self.
Proof.
  intros H. contact_outcomes kw.
  required_ok O1 (H F_contact_id). required_ok O3 (H F_location).
  required_ok O4 (H F_contact_type). required_ok O5 (H F_signal_strength).
  required_ok O6 (H F_duration_minutes). required_ok O7 (H F_witness_count).
  unfold AlienContact_fields.
  rewrite O1, O3, O4, O5, O6, O7, !Field_any. simpl.
  eexists. split; [reflexivity|].
  unfold supplied; simpl. subst.
  repeat split; assumption.
Qed.

Lemma AlienContact_fields_Ok_inv now kw self :
  AlienContact_fields now kw = Ok self ->
  (forall f, within_bounds kw f = true) /\ supplied now kw self.
Proof.
  intros H. unfold AlienContact_fields in H. ap_inv H.
  rewrite ?Field_any in *. contact_outcomes kw.
  outcome_inv O1. outcome_inv O3. outcome_inv O4. outcome_inv O5.
  outcome_inv O6. outcome_inv O7.
  repeat match goal with E : Ok _ = Ok _ |- _ => injection E as E end.
  subst. split.
  - intros []; simpl; auto.
  - unfold supplied; simpl. repeat split; assumption.
Qed.

Lemma AlienContact_fields_one_bad now kw f :
  within_bounds kw f = false ->
  (forall g, g <> f -> within_bounds kw g = true) ->
  exists es, AlienContact_fields now kw = ValidationError es /\
             Spec.field_errors (field_name f) es.
Proof.
  intros Hf H. contact_outcomes kw.
  unfold AlienContact_fields. rewrite !Field_any.
  destruct f; try discriminate Hf;
    settle O1 F_contact_id H Hf; settle O3 F_location H Hf;
    settle O4 F_contact_type H Hf; settle O5 F_signal_strength H Hf;
    settle O6 F_duration_minutes H Hf; settle O7 F_witness_count H Hf;
    rewrite O1, O3, O4, O5, O6, O7; simpl;
    eexists; (split; [reflexivity|assumption]).
Qed.

Lemma AlienContact_constraints now kw self :
  (forall f, within_bounds kw f = true) -> supplied now kw self ->
  constraints self.
Proof.
  intros H (E1 & _ & E3 & _ & E5 & E6 & E7 & _).
  pose proof (H F_contact_id) as W1. pose proof (H F_location) as W3.
  pose proof (H F_signal_strength) as W5.
  pose proof (H F_duration_minutes) as W6.
  pose proof (H F_witness_count) as W7.
  bound_of W1 E1. bound_of W3 E3. bound_of W5 E5. bound_of W6 E6.
  bound_of W7 E7.
  apply len_between_spec in W1, W3. apply float_between_spec in W5.
  apply int_between_spec in W6, W7.
  repeat split; tauto.
Qed.

Lemma AlienContact_init_valid now kw self :
  AlienContact_init now kw = Ok self -> valid self.
Proof.
  intros H. unfold AlienContact_init in H.
  apply (@BaseModel_Ok_inv _ rules _ AlienContact_check_model_rules) in H.
  destruct H as [H Hrules].
  apply AlienContact_fields_Ok_inv in H. destruct H as [Hw Hs].
  split; [|exact Hrules]. eapply AlienContact_constraints; eassumption.
Qed.

(** With all fields within bounds, the outcome is that of the rules. *)
Lemma AlienContact_init_rules now kw :
  (forall f, within_bounds kw f = true) ->
  exists self,
    supplied now kw self /\
    AlienContact_init now kw
    = match Spec.first_failing rules self with
      | None => Ok self
      | Some msg => Spec.cross_field_violation msg
      end.
Proof.
  intros H. destruct (AlienContact_fields_within now kw H) as (self & Hf & Hs).
  exists self. split; [exact Hs|].
  unfold AlienContact_init.
  now apply (@BaseModel_rules _ rules _ AlienContact_check_model_rules).
Qed.

Lemma AlienContact_supplied_unique now kw self self' :
  supplied now kw self -> supplied now kw self' -> self = self'.
Proof.
  destruct self as [i t l c s d w m v], self' as [i' t' l' c' s' d' w' m' v'].
  unfold supplied; simpl.
  intros (E1 & E2 & E3 & E4 & E5 & E6 & E7 & E8 & E9)
         (E1' & E2' & E3' & E4' & E5' & E6' & E7' & E8' & E9').
  rewrite E1 in E1'. rewrite E3 in E3'. rewrite E4 in E4'.
  rewrite E5 in E5'. rewrite E6 in E6'. rewrite E7 in E7'.
  injection E1' as <-. injection E3' as <-. injection E5' as <-.
  injection E6' as <-. injection E7' as <-. subst.
  replace c' with c; [reflexivity|].
  injection E4' as E4'. now destruct c, c'.
Qed.

Lemma AlienContact_init_within now kw :
  (forall f, within_bounds kw f = true) ->
  exists self, supplied now kw self /\
               (Spec.all_hold rules self ->
                AlienContact_init now kw = Ok self).
Proof.
  intros H. destruct (AlienContact_init_rules now kw H) as (self & Hs & Hi).
  exists self. split; [exact Hs|]. intros Hr.
  apply first_failing_None in Hr. now rewrite Hi, Hr.
Qed.

Lemma AlienContact_init_first_failing now kw self k r :
  (forall f, within_bounds kw f = true) ->
  supplied now kw self ->
  Spec.first_failing_at rules self k r ->
  AlienContact_init now kw = Spec.cross_field_violation (Spec.message r).
Proof.
  intros H Hs Hk.
  destruct (AlienContact_init_rules now kw H) as (self' & Hs' & Hi).
  rewrite (AlienContact_supplied_unique Hs Hs') in Hk.
  apply first_failing_at_Some in Hk. now rewrite Hi, Hk.
Qed.

Lemma AlienContact_init_one_bad now kw f :
  within_bounds kw f = false ->
  (forall g, g <> f -> within_bounds kw g = true) ->
  exists es, AlienContact_init now kw = ValidationError es /\
             Spec.field_errors (field_name f) es.
Proof.
  intros Hf H.
  destruct (AlienContact_fields_one_bad now kw Hf H) as (es & He & Hes).
  exists es. split; [|exact Hes].
  unfold AlienContact_init. now rewrite He.
Qed.

End Contact.

(** ** Lists of validated items *)

Section Lists.
Import Py Pydantic.

Variables A B : Type.
Variable ok : A -> bool.
Variable rel : A -> B -> Prop.
Variable v : A -> Validated B.
Hypothesis v_decides : Spec.decides ok rel v.

Lemma validate_items_decides l :
  forall i,
    if forallb ok l
    then exists bs, validate_items v i l = Ok bs /\ Forall2 rel l bs
    else exists es, validate_items v i l = ValidationError es /\
                    Spec.constraint_errors es.
Proof.
  induction l as [|a l IH]; intros i; simpl.
  - exists []. split; [reflexivity|constructor].
  - specialize (IH (S i)). pose proof (v_decides a) as Ha.
    destruct (ok a); simpl.
    + destruct Ha as (b & -> & Hab). simpl.
      destruct (forallb ok l).
      * destruct IH as (bs & -> & Hbs). simpl.
        exists (b :: bs). split; [reflexivity|now constructor].
      * destruct IH as (es & -> & Hes). simpl. now exists es.
    + destruct Ha as (es & -> & Hes). simpl.
      apply (under_constraint_errors (Index i)) in Hes.
      assert (Spec.sound (validate_items v (S i) l)) as Hl.
      { destruct (forallb ok l).
        - now destruct IH as (bs & -> & _).
        - now destruct IH as (es' & -> & Hes'). }
      destruct (validate_items v (S i) l) as [bs|es2]; simpl.
      * now eexists.
      * eexists. split; [reflexivity|].
        apply (ap_sound (B := list B)
                 (ValidationError _ : Validated (list B -> list B))
                 (ValidationError es2)); assumption.
Qed.

Lemma constr_list_decides lo hi :
  Spec.decides
    (fun l => ((lo <=? List.length l) && (List.length l <=? hi))%nat
              && forallb ok l)
    (Forall2 rel)
    (constr_list v (Some lo) (Some hi)).
Proof.
  intros l. unfold constr_list. pose proof (validate_items_decides l 0) as H.
  destruct (forallb ok l).
  - destruct H as (bs & -> & Hbs).
    rewrite <- (Forall2_length Hbs). unfold below, above.
    destruct (Nat.leb_spec lo (List.length l)),
             (Nat.leb_spec (List.length l) hi),
             (Nat.ltb_spec (List.length l) lo),
             (Nat.ltb_spec hi (List.length l)); simpl; try lia;
      try (now exists bs);
      eexists; (split; [reflexivity|]);
      apply fail_constraint_errors; discriminate.
  - rewrite andb_false_r. destruct H as (es & -> & Hes). now exists es.
Qed.

End Lists.

(** ** Crew-Member *)

Section Crew.
Import Py Pydantic space_crew.

Lemma Rank_decides :
  Spec.decides
    (fun s => existsb (String.eqb s)
                ["cadet"; "officer"; "lieutenant"; "captain"; "commander"])
    (fun s r => s = Rank_value r)
    (enum_of Rank_members Rank_value).
Proof.
  intros s. unfold enum_of, Rank_members.
  cbn [find existsb Rank_value]. rewrite !(String.eqb_sym s).
  destruct (String.eqb_spec "cadet" s) as [<-|_];
    [now exists cadet|].
  destruct (String.eqb_spec "officer" s) as [<-|_];
    [now exists officer|].
  destruct (String.eqb_spec "lieutenant" s) as [<-|_];
    [now exists lieutenant|].
  destruct (String.eqb_spec "captain" s) as [<-|_];
    [now exists captain|].
  destruct (String.eqb_spec "commander" s) as [<-|_];
    [now exists commander|].
  cbn [orb]. eexists. split; [reflexivity|].
  apply fail_constraint_errors. discriminate.
Qed.

Ltac member_outcomes kw :=
  pose proof (Field_required "member_id" (kw_member_id kw)
                (constr_str_decides 3 10)) as O1;
  pose proof (Field_required "name" (kw_name kw)
                (constr_str_decides 2 50)) as O2;
  pose proof (Field_required "rank" (kw_rank kw) Rank_decides) as O3;
  pose proof (Field_required "age" (kw_age kw)
                (constr_int_decides 18 80)) as O4;
  pose proof (Field_required "specialization" (kw_specialization kw)
                (constr_str_decides 3 30)) as O5;
  pose proof (Field_required "years_experience" (kw_years_experience kw)
                (constr_int_decides 0 50)) as O6.

Lemma CrewMember_fields_within kw :
  (forall f, CrewMember_within_bounds kw f = true) ->
  exists self, CrewMember_fields kw = Ok self /\ CrewMember_supplied kw self.
Proof.
  intros H. member_outcomes kw.
  required_ok O1 (H F_member_id). required_ok O2 (H F_name).
  required_ok O3 (H F_rank). required_ok O4 (H F_age).
  required_ok O5 (H F_specialization). required_ok O6 (H F_years_experience).
  unfold CrewMember_fields.
  rewrite O1, O2, O3, O4, O5, O6, !Field_any. simpl.
  eexists. split; [reflexivity|].
  unfold CrewMember_supplied; simpl. subst.
  repeat split; assumption.
Qed.

Lemma CrewMember_fields_Ok_inv kw self :
  CrewMember_fields kw = Ok self ->
  (forall f, CrewMember_within_bounds kw f = true) /\
  CrewMember_supplied kw self.
Proof.
  intros H. unfold CrewMember_fields in H. ap_inv H.
  rewrite ?Field_any in *. member_outcomes kw.
  outcome_inv O1. outcome_inv O2. outcome_inv O3. outcome_inv O4.
  outcome_inv O5. outcome_inv O6.
  repeat match goal with E : Ok _ = Ok _ |- _ => injection E as E end.
  subst. split.
  - intros []; simpl; auto.
  - unfold CrewMember_supplied; simpl. repeat split; assumption.
Qed.

Lemma CrewMember_fields_sound kw : Spec.sound (CrewMember_fields kw).
Proof.
  member_outcomes kw. unfold CrewMember_fields. rewrite !Field_any.
  repeat apply ap_sound; simpl; auto;
    eapply required_outcome_sound; eassumption.
Qed.

Lemma CrewMember_fields_one_bad kw f :
  CrewMember_within_bounds kw f = false ->
  (forall g, g <> f -> CrewMember_within_bounds kw g = true) ->
  exists es, CrewMember_fields kw = ValidationError es /\
             Spec.field_errors (CrewMember_field_name f) es.
Proof.
  intros Hf H. member_outcomes kw.
  unfold CrewMember_fields. rewrite !Field_any.
  destruct f; try discriminate Hf;
    settle O1 F_member_id H Hf; settle O2 F_name H Hf;
    settle O3 F_rank H Hf; settle O4 F_age H Hf;
    settle O5 F_specialization H Hf; settle O6 F_years_experience H Hf;
    rewrite O1, O2, O3, O4, O5, O6; simpl;
    eexists; (split; [reflexivity|assumption]).
Qed.

Lemma CrewMember_constraints_of kw self :
  (forall f, CrewMember_within_bounds kw f = true) ->
  CrewMember_supplied kw self -> CrewMember_constraints self.
Proof.
  intros H (E1 & E2 & _ & E4 & E5 & E6 & _).
  pose proof (H F_member_id) as W1. pose proof (H F_name) as W2.
  pose proof (H F_age) as W4. pose proof (H F_specialization) as W5.
  pose proof (H F_years_experience) as W6.
  bound_of W1 E1. bound_of W2 E2. bound_of W4 E4. bound_of W5 E5.
  bound_of W6 E6.
  apply len_between_spec in W1, W2, W5. apply int_between_spec in W4, W6.
  repeat split; tauto.
Qed.

Lemma CrewMember_all_within kw :
  forallb (CrewMember_within_bounds kw) CrewMember_all_fields = true <->
  forall f, CrewMember_within_bounds kw f = true.
Proof.
  rewrite forallb_forall. split; intros H f; [|now intros _].
  apply H. destruct f; simpl; tauto.
Qed.

Lemma CrewMember_init_fields kw : CrewMember_init kw = CrewMember_fields kw.
Proof.
  unfold CrewMember_init, BaseModel, no_validator.
  now destruct (CrewMember_fields kw).
Qed.

(** [CrewMember(...)] as the validator of a crew's items. *)
Lemma CrewMember_init_decides :
  Spec.decides
    (fun m => forallb (CrewMember_within_bounds m) CrewMember_all_fields)
    CrewMember_supplied CrewMember_init.
Proof.
  intros kw. rewrite CrewMember_init_fields.
  destruct (forallb (CrewMember_within_bounds kw) CrewMember_all_fields)
    eqn:Hall.
  - exact (CrewMember_fields_within kw
             (proj1 (CrewMember_all_within kw) Hall)).
  - pose proof (CrewMember_fields_sound kw) as Hs.
    destruct (CrewMember_fields kw) as [self|es] eqn:Hf.
    + apply CrewMember_fields_Ok_inv in Hf. destruct Hf as [Hw _].
      pose proof (proj2 (CrewMember_all_within kw) Hw). congruence.
    + now exists es.
Qed.

Lemma CrewMember_init_valid kw self :
  CrewMember_init kw = Ok self -> CrewMember_valid self.
Proof.
  rewrite CrewMember_init_fields. intros H.
  apply CrewMember_fields_Ok_inv in H. destruct H as [Hw Hs].
  split; [|constructor]. eapply CrewMember_constraints_of; eassumption.
Qed.

Lemma CrewMember_init_within kw :
  (forall f, CrewMember_within_bounds kw f = true) ->
  exists self, CrewMember_supplied kw self /\
               (Spec.all_hold CrewMember_rules self ->
                CrewMember_init kw = Ok self).
Proof.
  intros H. destruct (CrewMember_fields_within kw H) as (self & Hf & Hs).
  exists self. split; [exact Hs|]. intros _.
  now rewrite CrewMember_init_fields.
Qed.

Lemma CrewMember_init_one_bad kw f :
  CrewMember_within_bounds kw f = false ->
  (forall g, g <> f -> CrewMember_within_bounds kw g = true) ->
  exists es, CrewMember_init kw = ValidationError es /\
             Spec.field_errors (CrewMember_field_name f) es.
Proof.
  intros Hf H. rewrite CrewMember_init_fields.
  now apply CrewMember_fields_one_bad.
Qed.

Lemma CrewMember_supplied_unique kw self self' :
  CrewMember_supplied kw self -> CrewMember_supplied kw self' ->
  self = self'.
Proof.
  destruct self as [i n r a s y v], self' as [i' n' r' a' s' y' v'].
  unfold CrewMember_supplied; simpl.
  intros (E1 & E2 & E3 & E4 & E5 & E6 & E7)
         (E1' & E2' & E3' & E4' & E5' & E6' & E7').
  rewrite E1 in E1'. rewrite E2 in E2'. rewrite E3 in E3'.
  rewrite E4 in E4'. rewrite E5 in E5'. rewrite E6 in E6'.
  injection E1' as <-. injection E2' as <-. injection E4' as <-.
  injection E5' as <-. injection E6' as <-. subst.
  replace r' with r; [reflexivity|].
  injection E3' as E3'. now destruct r, r'.
Qed.

End Crew.

(** ** The crew aggregate predicates *)

Section CrewPredicates.
Import Py Pydantic space_crew.

(** The two counters of [not_min_rank] only grow, and stay where they
    are exactly when nobody commands. *)
Lemma not_min_rank_counters crew :
  forall c k,
  exists c' k',
    fold_left
      (fun '(nb_commander, nb_captain) person =>
         if Rank_eqb (rank person) commander
         then (nb_commander + 1, nb_captain)
         else if Rank_eqb (rank person) captain
         then (nb_commander, nb_captain + 1)
         else (nb_commander, nb_captain))
      crew (c, k) = (c', k') /\
    c <= c' /\ k <= k' /\
    (if existsb commands crew then c < c' \/ k < k'
     else c' = c /\ k' = k).
Proof.
  induction crew as [|p crew IH]; intros c k; simpl.
  - exists c, k. repeat split; lia.
  - unfold commands at 1.
    destruct (rank p); simpl.
    + destruct (IH c k) as (c' & k' & -> & Hc & Hk & Hex).
      exists c', k'. repeat split; assumption.
    + destruct (IH c k) as (c' & k' & -> & Hc & Hk & Hex).
      exists c', k'. repeat split; assumption.
    + destruct (IH c k) as (c' & k' & -> & Hc & Hk & Hex).
      exists c', k'. repeat split; assumption.
    + destruct (IH c (k + 1)) as (c' & k' & -> & Hc & Hk & Hex).
      exists c', k'. repeat split; lia.
    + destruct (IH (c + 1) k) as (c' & k' & -> & Hc & Hk & Hex).
      exists c', k'. repeat split; lia.
Qed.

Lemma not_min_rank_spec crew :
  not_min_rank crew = negb (existsb commands crew).
Proof.
  unfold not_min_rank.
  destruct (not_min_rank_counters crew 0 0) as (c & k & -> & Hc & Hk & Hex).
  destruct (existsb commands crew); simpl.
  - destruct (Z.eqb_spec c 0), (Z.eqb_spec k 0); simpl; try reflexivity.
    lia.
  - destruct Hex as [-> ->]. reflexivity.
Qed.

Lemma active_crew_spec crew : active_crew crew = forallb is_active crew.
Proof.
  induction crew as [|p crew IH]; simpl; [reflexivity|].
  now destruct (is_active p).
Qed.

Lemma experience_count crew :
  forall n,
    fold_left
      (fun nb_experience person =>
         if years_experience person >? 5 then nb_experience + 1
         else nb_experience)
      crew n
    = n + Z.of_nat (nb_experienced crew).
Proof.
  unfold nb_experienced.
  induction crew as [|p crew IH]; intros n; simpl.
  - lia.
  - rewrite IH. unfold experienced at 2. rewrite Z.gtb_ltb.
    destruct (5 <? years_experience p); simpl List.length; lia.
Qed.

(** [nb >= len / 2] on a float is [len <= 2 * nb] on integers. *)
Lemma half_le (n l : Z) :
  fge (inject_Z n) (inject_Z l / 2)%Q = (l <=? 2 * n).
Proof.
  apply Bool.eq_iff_eq_true. unfold fge.
  rewrite Qle_bool_iff, Z.leb_le.
  unfold Qle, Qdiv, Qmult, Qinv, inject_Z. cbn [Qnum Qden]. lia.
Qed.

Lemma experience_crew_spec crew :
  experience_crew crew
  = (List.length crew <=? 2 * nb_experienced crew)%nat.
Proof.
  unfold experience_crew. rewrite experience_count, half_le.
  destruct (Z.leb_spec (Z.of_nat (List.length crew))
              (2 * (0 + Z.of_nat (nb_experienced crew)))),
           (Nat.leb_spec (List.length crew) (2 * nb_experienced crew));
    try reflexivity; lia.
Qed.

End CrewPredicates.

(** ** Mission *)

Section Mission.
Import Py Pydantic space_crew.

(** The test of the first branch says that the id does not start with
    "M". *)
Lemma not_M s :
  (if len s =? 0 then true
   else match first_char s with
        | Some c => negb (String.eqb c "M")
        | None => true
        end)
  = negb (prefix "M" s).
Proof.
  destruct s as [|a s]; [reflexivity|].
  rewrite prefix_String. unfold len, first_char. cbn [String.length].
  destruct (Z.eqb_spec (Z.of_nat (S (String.length s))) 0) as [H0|_];
    [lia|].
  cbn [String.eqb]. rewrite (Ascii.eqb_sym a).
  replace (prefix "" s) with true by now destruct s.
  reflexivity.
Qed.

(** The [elif] chain of [check_model] reports the first failing rule. *)
Lemma SpaceMission_check_model_rules self :
  check_model self
  = match Spec.first_failing rules self with
    | None => Return self
    | Some msg => ValueError msg
    end.
Proof.
  unfold check_model.
  rewrite not_M, not_min_rank_spec, experience_crew_spec, active_crew_spec.
  rewrite Z.gtb_ltb.
  unfold rules, Spec.first_failing, Spec.holds, Spec.message.
  destruct (prefix "M" (mission_id self)); [|reflexivity].
  destruct (existsb commands (crew self)); [|reflexivity].
  destruct (365 <? duration_days self),
           (List.length (crew self) <=? 2 * nb_experienced (crew self))%nat,
           (forallb is_active (crew self)); reflexivity.
Qed.

Lemma crew_valid members :
  forall crew,
    forallb
      (fun m => forallb (CrewMember_within_bounds m) CrewMember_all_fields)
      members = true ->
    Forall2 CrewMember_supplied members crew ->
    Forall CrewMember_valid crew.
Proof.
  induction members as [|m members IH]; intros crew Hall Hs;
    inversion Hs as [|? c ? crew' Hm Hrest]; subst; constructor.
  - simpl in Hall. apply andb_true_iff in Hall. destruct Hall as [Hm' _].
    split; [|constructor].
    eapply CrewMember_constraints_of; [|exact Hm].
    now apply CrewMember_all_within.
  - simpl in Hall. apply andb_true_iff in Hall. destruct Hall as [_ Hall].
    now apply IH.
Qed.

Lemma crew_supplied_unique members :
  forall crew crew',
    Forall2 CrewMember_supplied members crew ->
    Forall2 CrewMember_supplied members crew' -> crew = crew'.
Proof.
  induction members as [|m members IH]; intros crew crew' H H';
    inversion H; inversion H'; subst; [reflexivity|].
  f_equal; [eapply CrewMember_supplied_unique; eassumption|now apply IH].
Qed.

Ltac mission_outcomes kw :=
  pose proof (Field_required "mission_id" (kw_mission_id kw)
                (constr_str_decides 5 15)) as O1;
  pose proof (Field_required "mission_name" (kw_mission_name kw)
                (constr_str_decides 3 100)) as O2;
  pose proof (Field_required "destination" (kw_destination kw)
                (constr_str_decides 3 50)) as O3;
  pose proof (Field_required "duration_days" (kw_duration_days kw)
                (constr_int_decides 1 3650)) as O5;
  pose proof (Field_required "crew" (kw_crew kw)
                (constr_list_decides CrewMember_init_decides 1 12)) as O6;
  pose proof (Field_required "budget_millions" (kw_budget_millions kw)
                (constr_float_decides 1%Q 10000%Q)) as O8.

Lemma SpaceMission_fields_within now kw :
  (forall f, within_bounds kw f = true) ->
  exists self, SpaceMission_fields now kw = Ok self /\ supplied now kw self.
Proof.
  intros H. mission_outcomes kw.
  required_ok O1 (H F_mission_id). required_ok O2 (H F_mission_name).
  required_ok O3 (H F_destination). required_ok O5 (H F_duration_days).
  required_ok O6 (H F_crew). required_ok O8 (H F_budget_millions).
  unfold SpaceMission_fields.
  rewrite O1, O2, O3, O5, O6, O8, !Field_any. simpl.
  eexists. split; [reflexivity|].
  unfold supplied; simpl. subst.
  repeat split; try assumption. eauto.
Qed.

Lemma SpaceMission_fields_Ok_inv now kw self :
  SpaceMission_fields now kw = Ok self ->
  (forall f, within_bounds kw f = true) /\ supplied now kw self.
Proof.
  intros H. unfold SpaceMission_fields in H. ap_inv H.
  rewrite ?Field_any in *. mission_outcomes kw.
  outcome_inv O1. outcome_inv O2. outcome_inv O3. outcome_inv O5.
  outcome_inv O6. outcome_inv O8.
  repeat match goal with E : Ok _ = Ok _ |- _ => injection E as E end.
  subst. split.
  - intros []; simpl; auto.
  - unfold supplied; simpl. repeat split; try assumption. eauto.
Qed.

Lemma SpaceMission_fields_one_bad now kw f :
  within_bounds kw f = false ->
  (forall g, g <> f -> within_bounds kw g = true) ->
  exists es, SpaceMission_fields now kw = ValidationError es /\
             Spec.field_errors (field_name f) es.
Proof.
  intros Hf H. mission_outcomes kw.
  unfold SpaceMission_fields. rewrite !Field_any.
  destruct f; try discriminate Hf;
    settle O1 F_mission_id H Hf; settle O2 F_mission_name H Hf;
    settle O3 F_destination H Hf; settle O5 F_duration_days H Hf;
    settle O6 F_crew H Hf; settle O8 F_budget_millions H Hf;
    rewrite O1, O2, O3, O5, O6, O8; simpl;
    eexists; (split; [reflexivity|assumption]).
Qed.

Lemma SpaceMission_constraints now kw self :
  (forall f, within_bounds kw f = true) -> supplied now kw self ->
  constraints self.
Proof.
  intros H (E1 & E2 & E3 & _ & E5 & (members & E6 & Hcrew) & _ & E8).
  pose proof (H F_mission_id) as W1. pose proof (H F_mission_name) as W2.
  pose proof (H F_destination) as W3. pose proof (H F_duration_days) as W5.
  pose proof (H F_crew) as W6. pose proof (H F_budget_millions) as W8.
  bound_of W1 E1. bound_of W2 E2. bound_of W3 E3. bound_of W5 E5.
  bound_of W8 E8.
  unfold within_bounds in W6. rewrite E6 in W6. cbn [Spec.required] in W6.
  apply andb_true_iff in W6. destruct W6 as [Wlen Wall].
  apply andb_true_iff in Wlen. rewrite !Nat.leb_le in Wlen.
  rewrite (Forall2_length Hcrew) in Wlen.
  apply len_between_spec in W1, W2, W3. apply int_between_spec in W5.
  apply float_between_spec in W8.
  pose proof (crew_valid Wall Hcrew).
  repeat split; tauto.
Qed.

Lemma SpaceMission_init_valid now kw self :
  SpaceMission_init now kw = Ok self -> valid self.
Proof.
  intros H. unfold SpaceMission_init in H.
  apply (@BaseModel_Ok_inv _ rules _ SpaceMission_check_model_rules) in H.
  destruct H as [H Hrules].
  apply SpaceMission_fields_Ok_inv in H. destruct H as [Hw Hs].
  split; [|exact Hrules]. eapply SpaceMission_constraints; eassumption.
Qed.

(** With all fields within bounds, the outcome is that of the rules. *)
Lemma SpaceMission_init_rules now kw :
  (forall f, within_bounds kw f = true) ->
  exists self,
    supplied now kw self /\
    SpaceMission_init now kw
    = match Spec.first_failing rules self with
      | None => Ok self
      | Some msg => Spec.cross_field_violation msg
      end.
Proof.
  intros H. destruct (SpaceMission_fields_within now kw H) as (self & Hf & Hs).
  exists self. split; [exact Hs|].
  unfold SpaceMission_init.
  now apply (@BaseModel_rules _ rules _ SpaceMission_check_model_rules).
Qed.

Lemma SpaceMission_supplied_unique now kw self self' :
  supplied now kw self -> supplied now kw self' -> self = self'.
Proof.
  destruct self as [i n d l t c s b], self' as [i' n' d' l' t' c' s' b'].
  unfold supplied; simpl.
  intros (E1 & E2 & E3 & E4 & E5 & (ms & E6 & Hc) & E7 & E8)
         (E1' & E2' & E3' & E4' & E5' & (ms' & E6' & Hc') & E7' & E8').
  rewrite E1 in E1'. rewrite E2 in E2'. rewrite E3 in E3'.
  rewrite E5 in E5'. rewrite E6 in E6'. rewrite E8 in E8'.
  injection E1' as <-. injection E2' as <-. injection E3' as <-.
  injection E5' as <-. injection E6' as <-. injection E8' as <-. subst.
  now rewrite (crew_supplied_unique Hc Hc').
Qed.

Lemma SpaceMission_init_within now kw :
  (forall f, within_bounds kw f = true) ->
  exists self, supplied now kw self /\
               (Spec.all_hold rules self ->
                SpaceMission_init now kw = Ok self).
Proof.
  intros H. destruct (SpaceMission_init_rules now kw H) as (self & Hs & Hi).
  exists self. split; [exact Hs|]. intros Hr.
  apply first_failing_None in Hr. now rewrite Hi, Hr.
Qed.

Lemma SpaceMission_init_first_failing now kw self k r :
  (forall f, within_bounds kw f = true) ->
  supplied now kw self ->
  Spec.first_failing_at rules self k r ->
  SpaceMission_init now kw = Spec.cross_field_violation (Spec.message r).
Proof.
  intros H Hs Hk.
  destruct (SpaceMission_init_rules now kw H) as (self' & Hs' & Hi).
  rewrite (SpaceMission_supplied_unique Hs Hs') in Hk.
  apply first_failing_at_Some in Hk. now rewrite Hi, Hk.
Qed.

Lemma SpaceMission_init_one_bad now kw f :
  within_bounds kw f = false ->
  (forall g, g <> f -> within_bounds kw g = true) ->
  exists es, SpaceMission_init now kw = ValidationError es /\
             Spec.field_errors (field_name f) es.
Proof.
  intros Hf H.
  destruct (SpaceMission_fields_one_bad now kw Hf H) as (es & He & Hes).
  exists es. split; [|exact Hes].
  unfold SpaceMission_init. now rewrite He.
Qed.

End Mission.

(* ================================================================== *)
(** * The claims of the specification *)
(* ================================================================== *)

(** C1. For each of the four schemas (Station, Contact, Mission,
    Crew-Member), a record that construction returns satisfies every
    declared field constraint and every cross-field rule of its schema:
    construction yields a valid record or a failure, never a record that
    violates one of them. *)
Theorem construction_returns_valid_records :
  (forall now kw self,
      space_station.SpaceStation_init now kw = Pydantic.Ok self ->
      space_station.valid self) /\
  (forall now kw self,
      alien_contact.AlienContact_init now kw = Pydantic.Ok self ->
      alien_contact.valid self) /\
  (forall now kw self,
      space_crew.SpaceMission_init now kw = Pydantic.Ok self ->
      space_crew.valid self) /\
  (forall kw self,
      space_crew.CrewMember_init kw = Pydantic.Ok self ->
      space_crew.CrewMember_valid self).
Proof.
  split; [|split; [|split]].
  - intros now kw self H. now apply (SpaceStation_init_valid now kw).
  - intros now kw self H. now apply (AlienContact_init_valid now kw).
  - intros now kw self H. now apply (SpaceMission_init_valid now kw).
  - intros kw self H. now apply (CrewMember_init_valid kw).
Qed.

Lemma construction_returns_valid_records_witness :
  (exists self,
      space_station.SpaceStation_init 0 space_station.station1
      = Pydantic.Ok self /\ space_station.valid self) /\
  (exists self,
      alien_contact.AlienContact_init 0 alien_contact.contact1
      = Pydantic.Ok self /\ alien_contact.valid self) /\
  (exists self,
      space_crew.SpaceMission_init 0 space_crew.mission1
      = Pydantic.Ok self /\ space_crew.valid self) /\
  (exists self,
      space_crew.CrewMember_init
        (space_crew.member "Person005" "Sarah Connor" "commander" 37
           "Mission Command" 5)
      = Pydantic.Ok self /\ space_crew.CrewMember_valid self).
Proof.
  destruct construction_returns_valid_records as (H1 & H2 & H3 & H4).
  split; [|split; [|split]].
  - eexists. split; [reflexivity|].
    apply (H1 0 space_station.station1). reflexivity.
  - eexists. split; [reflexivity|].
    apply (H2 0 alien_contact.contact1). reflexivity.
  - eexists. split; [reflexivity|].
    apply (H3 0 space_crew.mission1). reflexivity.
  - eexists. split; [reflexivity|].
    apply (H4 (space_crew.member "Person005" "Sarah Connor" "commander" 37
                 "Mission Command" 5)).
    reflexivity.
Defined.

(** C2. For each schema, when every field of the input lies within its
    declared bounds, the input determines a record whose fields are the
    supplied values, with the declared defaults for the omitted fields; and
    when that record satisfies every cross-field rule of the schema,
    construction succeeds and returns it. *)
Theorem valid_input_constructs_supplied_record :
  (forall now kw,
      (forall f, space_station.within_bounds kw f = true) ->
      exists self,
        space_station.supplied now kw self /\
        (Spec.all_hold space_station.rules self ->
         space_station.SpaceStation_init now kw = Pydantic.Ok self)) /\
  (forall now kw,
      (forall f, alien_contact.within_bounds kw f = true) ->
      exists self,
        alien_contact.supplied now kw self /\
        (Spec.all_hold alien_contact.rules self ->
         alien_contact.AlienContact_init now kw = Pydantic.Ok self)) /\
  (forall now kw,
      (forall f, space_crew.within_bounds kw f = true) ->
      exists self,
        space_crew.supplied now kw self /\
        (Spec.all_hold space_crew.rules self ->
         space_crew.SpaceMission_init now kw = Pydantic.Ok self)) /\
  (forall kw,
      (forall f, space_crew.CrewMember_within_bounds kw f = true) ->
      exists self,
        space_crew.CrewMember_supplied kw self /\
        (Spec.all_hold space_crew.CrewMember_rules self ->
         space_crew.CrewMember_init kw = Pydantic.Ok self)).
Proof.
  split; [|split; [|split]].
  - exact SpaceStation_init_within.
  - exact AlienContact_init_within.
  - exact SpaceMission_init_within.
  - exact CrewMember_init_within.
Qed.

Lemma valid_input_constructs_supplied_record_witness :
  (forall f, alien_contact.within_bounds alien_contact.contact1 f = true) /\
  (forall f, space_crew.within_bounds space_crew.mission1 f = true) /\
  (exists self,
      alien_contact.supplied 0 alien_contact.contact1 self /\
      Spec.all_hold alien_contact.rules self /\
      alien_contact.AlienContact_init 0 alien_contact.contact1
      = Pydantic.Ok self) /\
  (exists self,
      space_crew.supplied 0 space_crew.mission1 self /\
      Spec.all_hold space_crew.rules self /\
      space_crew.SpaceMission_init 0 space_crew.mission1 = Pydantic.Ok self).
Proof.
  assert (forall f,
             alien_contact.within_bounds alien_contact.contact1 f = true)
    as Hc by (intros []; reflexivity).
  assert (forall f, space_crew.within_bounds space_crew.mission1 f = true)
    as Hm by (intros []; reflexivity).
  destruct valid_input_constructs_supplied_record as (_ & H2 & H3 & _).
  split; [exact Hc|]. split; [exact Hm|]. split.
  - destruct (H2 0 alien_contact.contact1 Hc) as (self & Hs & Hi).
    exists self.
    assert (Spec.all_hold alien_contact.rules self) as Hr.
    { destruct Hs as (E1 & _ & _ & E4 & E5 & _ & E7 & E8 & E9).
      destruct self as [i t l c s d w m v]; simpl in *.
      injection E1 as <-. injection E5 as <-. injection E7 as <-. subst m v.
      destruct c; try discriminate E4.
      repeat constructor. }
    auto.
  - destruct (H3 0 space_crew.mission1 Hm) as (self & Hs & Hi).
    exists self.
    assert (self = {|
              space_crew.mission_id := "M2024_MARS";
              space_crew.mission_name := "Mars Colony Establishment";
              space_crew.destination := "Mars";
              space_crew.lauch_date := 0;
              space_crew.duration_days := 900;
              space_crew.crew := space_crew.crew1;
              space_crew.mission_status := "planned";
              space_crew.budget_millions := 2500%Q |}) as ->.
    { apply (SpaceMission_supplied_unique (now := 0)
               (kw := space_crew.mission1)); [exact Hs|].
      unfold space_crew.supplied; simpl.
      repeat split. eexists. split; [reflexivity|].
      repeat constructor. }
    assert (Spec.all_hold space_crew.rules
              {| space_crew.mission_id := "M2024_MARS";
                 space_crew.mission_name := "Mars Colony Establishment";
                 space_crew.destination := "Mars";
                 space_crew.lauch_date := 0;
                 space_crew.duration_days := 900;
                 space_crew.crew := space_crew.crew1;
                 space_crew.mission_status := "planned";
                 space_crew.budget_millions := 2500%Q |}) as Hr
      by (repeat constructor).
    auto.
Defined.

(** C3. For each schema, when exactly one field of the input violates its
    declared constraint, construction fails, whatever the cross-field rules
    would say of the input: there is at least one error, every error names
    that field, and none is the error of a cross-field rule. *)
Theorem one_field_out_of_bounds_names_it :
  (forall now kw f,
      space_station.within_bounds kw f = false ->
      (forall g, g <> f -> space_station.within_bounds kw g = true) ->
      exists es,
        space_station.SpaceStation_init now kw = Pydantic.ValidationError es /\
        Spec.field_errors (space_station.field_name f) es) /\
  (forall now kw f,
      alien_contact.within_bounds kw f = false ->
      (forall g, g <> f -> alien_contact.within_bounds kw g = true) ->
      exists es,
        alien_contact.AlienContact_init now kw = Pydantic.ValidationError es /\
        Spec.field_errors (alien_contact.field_name f) es) /\
  (forall now kw f,
      space_crew.within_bounds kw f = false ->
      (forall g, g <> f -> space_crew.within_bounds kw g = true) ->
      exists es,
        space_crew.SpaceMission_init now kw = Pydantic.ValidationError es /\
        Spec.field_errors (space_crew.field_name f) es) /\
  (forall kw f,
      space_crew.CrewMember_within_bounds kw f = false ->
      (forall g, g <> f -> space_crew.CrewMember_within_bounds kw g = true) ->
      exists es,
        space_crew.CrewMember_init kw = Pydantic.ValidationError es /\
        Spec.field_errors (space_crew.CrewMember_field_name f) es).
Proof.
  split; [|split; [|split]].
  - exact SpaceStation_init_one_bad.
  - exact AlienContact_init_one_bad.
  - exact SpaceMission_init_one_bad.
  - exact CrewMember_init_one_bad.
Qed.

Lemma one_field_out_of_bounds_names_it_witness :
  space_station.within_bounds space_station.station2
    space_station.F_crew_size = false /\
  (forall g, g <> space_station.F_crew_size ->
             space_station.within_bounds space_station.station2 g = true) /\
  exists es,
    space_station.SpaceStation_init 0 space_station.station2
    = Pydantic.ValidationError es /\
    Spec.field_errors "crew_size" es.
Proof.
  assert (forall g, g <> space_station.F_crew_size ->
                    space_station.within_bounds space_station.station2 g
                    = true) as Hg.
  { intros [] Hne; try reflexivity. now contradiction Hne. }
  split; [reflexivity|]. split; [exact Hg|].
  exact (proj1 one_field_out_of_bounds_names_it 0 space_station.station2
           space_station.F_crew_size eq_refl Hg).
Defined.

(** C4. For a Contact and for a Mission whose fields are all within
    bounds: when rule number [k] of the schema's ordered rule list is the
    first that the assembled record fails, construction fails with one
    error carrying the message of rule [k], whatever the later rules say. *)
Theorem first_failing_rule_message :
  (forall now kw self k r,
      (forall f, alien_contact.within_bounds kw f = true) ->
      alien_contact.supplied now kw self ->
      Spec.first_failing_at alien_contact.rules self k r ->
      alien_contact.AlienContact_init now kw
      = Spec.cross_field_violation (Spec.message r)) /\
  (forall now kw self k r,
      (forall f, space_crew.within_bounds kw f = true) ->
      space_crew.supplied now kw self ->
      Spec.first_failing_at space_crew.rules self k r ->
      space_crew.SpaceMission_init now kw
      = Spec.cross_field_violation (Spec.message r)).
Proof.
  split.
  - intros now kw self k r. apply AlienContact_init_first_failing.
  - intros now kw self k r. apply SpaceMission_init_first_failing.
Qed.

Lemma first_failing_rule_message_witness :
  alien_contact.AlienContact_init 0 alien_contact.contact2
  = Spec.cross_field_violation
      "telepathic contact requires at least 3 witnesses" /\
  space_crew.SpaceMission_init 0 space_crew.mission2
  = Spec.cross_field_violation "Must have at least one Commander or Captain".
Proof.
  destruct first_failing_rule_message as (Hc & Hm). split.
  - refine (Hc 0 alien_contact.contact2 (alien_contact.contact2_record 0)
              2%nat
              {| Spec.holds := fun c =>
                   match alien_contact.contact_type c with
                   | alien_contact.telepathic =>
                       3 <=? alien_contact.witness_count c
                   | _ => true
                   end;
                 Spec.message :=
                   "telepathic contact requires at least 3 witnesses" |}
              _ _ _).
    + intros []; reflexivity.
    + unfold alien_contact.supplied; simpl. repeat split.
    + split; [reflexivity|]. split; [reflexivity|].
      intros [|[|j]] r' Hj Hr'; try lia; injection Hr' as <-; reflexivity.
  - refine (Hm 0 space_crew.mission2 (space_crew.mission2_record 0)
              1%nat
              {| Spec.holds := fun m =>
                   existsb space_crew.commands (space_crew.crew m);
                 Spec.message :=
                   "Must have at least one Commander or Captain" |}
              _ _ _).
    + intros []; reflexivity.
    + unfold space_crew.supplied; simpl. repeat split.
      eexists. split; [reflexivity|]. repeat constructor.
    + split; [reflexivity|]. split; [reflexivity|].
      intros [|j] r' Hj Hr'; try lia; injection Hr' as <-; reflexivity.
Defined.

(** C5. [experience_crew] is true iff the number of members with more than
    5 years of experience is at least half the crew size, the half taken as
    a rational; so for a crew of 3 it is false with exactly 1 such member
    and true with exactly 2. *)
Theorem experience_crew_half :
  (forall crew,
      space_crew.experience_crew crew = true <->
      (inject_Z (Z.of_nat (List.length crew)) / 2
       <= inject_Z (Z.of_nat (space_crew.nb_experienced crew)))%Q) /\
  (forall crew,
      List.length crew = 3%nat -> space_crew.nb_experienced crew = 1%nat ->
      space_crew.experience_crew crew = false) /\
  (forall crew,
      List.length crew = 3%nat -> space_crew.nb_experienced crew = 2%nat ->
      space_crew.experience_crew crew = true).
Proof.
  split; [|split].
  - intros crew. unfold space_crew.experience_crew.
    rewrite experience_count, Z.add_0_l. unfold Py.fge.
    apply Qle_bool_iff.
  - intros crew Hl Hn. rewrite experience_crew_spec, Hl, Hn. reflexivity.
  - intros crew Hl Hn. rewrite experience_crew_spec, Hl, Hn. reflexivity.
Qed.

Lemma experience_crew_half_witness :
  space_crew.experience_crew space_crew.crew3 = false /\
  space_crew.experience_crew space_crew.crew1 = true.
Proof.
  destruct experience_crew_half as (_ & H1 & H2). split.
  - apply (H1 space_crew.crew3); reflexivity.
  - apply (H2 space_crew.crew1); reflexivity.
Defined.

(** C6. A crew has command rank ([not_min_rank] is false) iff some member
    is a commander or some member is a captain; so a Mission input whose
    fields are all within bounds, whose id starts with "M" and whose crew
    has neither commander nor captain fails with the message "Must have at
    least one Commander or Captain". *)
Theorem command_rank_rule :
  (forall crew,
      space_crew.not_min_rank crew = false <->
      (exists p, In p crew /\ space_crew.rank p = space_crew.commander) \/
      (exists p, In p crew /\ space_crew.rank p = space_crew.captain)) /\
  (forall now kw self,
      (forall f, space_crew.within_bounds kw f = true) ->
      space_crew.supplied now kw self ->
      prefix "M" (space_crew.mission_id self) = true ->
      (forall p, In p (space_crew.crew self) ->
                 space_crew.rank p <> space_crew.commander /\
                 space_crew.rank p <> space_crew.captain) ->
      space_crew.SpaceMission_init now kw
      = Spec.cross_field_violation
          "Must have at least one Commander or Captain").
Proof.
  assert (forall crew,
             existsb space_crew.commands crew = true <->
             (exists p, In p crew /\ space_crew.rank p = space_crew.commander)
             \/ (exists p, In p crew /\ space_crew.rank p = space_crew.captain))
    as Hex.
  { intros crew. rewrite existsb_exists. unfold space_crew.commands. split.
    - intros (p & Hin & Hp).
      destruct (space_crew.rank p) eqn:Hr; try discriminate Hp;
        [right|left]; now exists p.
    - intros [(p & Hin & Hp)|(p & Hin & Hp)]; exists p; now rewrite Hp. }
  split.
  - intros crew. rewrite not_min_rank_spec, negb_false_iff. apply Hex.
  - intros now kw self Hw Hs HM Hnone.
    apply (SpaceMission_init_first_failing (self := self) (k := 1%nat)
             (r := {| Spec.holds := fun m =>
                        existsb space_crew.commands (space_crew.crew m);
                      Spec.message :=
                        "Must have at least one Commander or Captain" |})
             Hw Hs).
    split; [reflexivity|]. split.
    + simpl. apply not_true_is_false. intros Hc. apply Hex in Hc.
      destruct Hc as [(p & Hin & Hp)|(p & Hin & Hp)];
        destruct (Hnone p Hin); contradiction.
    + intros [|j] r' Hj Hr'; [|lia]. injection Hr' as <-. exact HM.
Qed.

Lemma command_rank_rule_witness :
  space_crew.SpaceMission_init 0 space_crew.mission2
  = Spec.cross_field_violation "Must have at least one Commander or Captain".
Proof.
  apply (proj2 command_rank_rule 0 space_crew.mission2
           (space_crew.mission2_record 0)).
  - intros []; reflexivity.
  - unfold space_crew.supplied; simpl. repeat split.
    eexists. split; [reflexivity|]. repeat constructor.
  - reflexivity.
  - simpl. intros p [<-|[<-|[<-|[]]]]; split; discriminate.
Defined.

(** C7. [convert_duration] maps 45 to "45 minutes", 60 to "1 hour", 90 to
    "1 hour 30 minutes", 120 to "2 hours" and 1 to "1 minute". *)
Theorem convert_duration_examples :
  alien_contact.convert_duration 45 = "45 minutes" /\
  alien_contact.convert_duration 60 = "1 hour" /\
  alien_contact.convert_duration 90 = "1 hour 30 minutes" /\
  alien_contact.convert_duration 120 = "2 hours" /\
  alien_contact.convert_duration 1 = "1 minute".
Proof. repeat split; reflexivity. Qed.

(** C8. For a duration of 1 to 1440 minutes, [convert_duration] returns
    the phrase of the specification: the hour phrase iff the duration is at
    least 60, the minute phrase iff the duration is not a multiple of 60,
    each unit in the singular exactly when its count (duration div 60,
    duration mod 60) is 1 and with an "s" otherwise. *)
Theorem convert_duration_phrase (duration : Z) :
  1 <= duration <= 1440 ->
  alien_contact.convert_duration duration
  = alien_contact.duration_phrase duration.
Proof.
  intros Hd.
  unfold alien_contact.convert_duration, alien_contact.duration_phrase,
    alien_contact.unit_phrase.
  pose proof (Z.mod_pos_bound duration 60 ltac:(lia)) as Hm.
  pose proof (Z.div_mod duration 60 ltac:(lia)) as Hdm.
  rewrite !Z.geb_leb.
  destruct (Z.leb_spec 60 duration) as [H60|H60];
    destruct (Z.eqb_spec (duration mod 60) 0) as [H0|H0];
    destruct (Z.eqb_spec (duration mod 60) 1) as [H1|H1];
    destruct (Z.leb_spec 120 duration) as [H120|H120];
    destruct (Z.eqb_spec (duration / 60) 1) as [Hh|Hh];
    try lia; cbn [negb append]; rewrite ?string_append_assoc;
    cbn [append]; reflexivity.
Qed.

Lemma convert_duration_phrase_witness :
  1 <= 90 <= 1440 /\
  alien_contact.convert_duration 90 = alien_contact.duration_phrase 90.
Proof.
  split; [lia|]. apply (@convert_duration_phrase 90). lia.
Defined.

(** C9. The last line that [display_station] prints, the status line, is
    "Status: Non Operational" when [is_operational] is true and "Status:
    Operational" when it is false; this holds of every Station record, so
    of every valid one. *)
Theorem display_station_status_line :
  forall (repr : Q -> string) (station : space_station.SpaceStation),
    List.length (space_station.display_station repr station) = 6%nat /\
    nth_error (space_station.display_station repr station) 5
    = Some (if space_station.is_operational station
            then "Status: Non Operational"
            else "Status: Operational").
Proof.
  intros repr station. split; [reflexivity|].
  unfold space_station.display_station. cbn [nth_error].
  now destruct (space_station.is_operational station).
Qed.

(** C10. [convert_duration 0] is the empty string. *)
Theorem convert_duration_zero : alien_contact.convert_duration 0 = "".
Proof. reflexivity. Qed.

(* ================================================================== *)
(** * Further properties of the code *)
(* ================================================================== *)

(** ** Construction, seen from the input *)

Section Construction.
Import Py Pydantic.

Lemma defaulted_outcome_sound (A B : Type) ok rel name d arg
  (res : Validated B) :
  Spec.defaulted_outcome (A := A) ok rel name d arg res -> Spec.sound res.
Proof.
  unfold Spec.defaulted_outcome. destruct (Spec.defaulted ok arg).
  - now intros (b & -> & _).
  - intros (es & -> & Hes). simpl. eapply field_errors_constraint, Hes.
Qed.

Lemma Field_required_sound (A B : Type) ok rel (v : A -> Validated B)
  name arg :
  Spec.decides ok rel v -> Spec.sound (Field name v None arg).
Proof.
  intros Hv. eapply required_outcome_sound. apply Field_required, Hv.
Qed.

Lemma Field_defaulted_sound (A B : Type) ok rel (v : A -> Validated B)
  name d arg :
  Spec.decides ok rel v -> Spec.sound (Field name v (Some d) arg).
Proof.
  intros Hv. eapply defaulted_outcome_sound. apply Field_defaulted, Hv.
Qed.

Lemma SpaceStation_fields_sound now kw :
  Spec.sound (space_station.SpaceStation_fields now kw).
Proof.
  unfold space_station.SpaceStation_fields. rewrite !Field_any.
  repeat apply ap_sound; try exact I.
  - eapply Field_required_sound, constr_str_decides.
  - eapply Field_required_sound, constr_str_decides.
  - eapply Field_required_sound, constr_int_decides.
  - eapply Field_required_sound, constr_float_decides.
  - eapply Field_required_sound, constr_float_decides.
  - eapply Field_defaulted_sound, constr_str_max_decides.
Qed.

Lemma AlienContact_fields_sound now kw :
  Spec.sound (alien_contact.AlienContact_fields now kw).
Proof.
  unfold alien_contact.AlienContact_fields. rewrite !Field_any.
  repeat apply ap_sound; try exact I.
  - eapply Field_required_sound, constr_str_decides.
  - eapply Field_required_sound, constr_str_decides.
  - eapply Field_required_sound, ContactType_decides.
  - eapply Field_required_sound, constr_float_decides.
  - eapply Field_required_sound, constr_int_decides.
  - eapply Field_required_sound, constr_int_decides.
Qed.

Lemma SpaceMission_fields_sound now kw :
  Spec.sound (space_crew.SpaceMission_fields now kw).
Proof.
  unfold space_crew.SpaceMission_fields. rewrite !Field_any.
  repeat apply ap_sound; try exact I.
  - eapply Field_required_sound, constr_str_decides.
  - eapply Field_required_sound, constr_str_decides.
  - eapply Field_required_sound, constr_str_decides.
  - eapply Field_required_sound, constr_int_decides.
  - eapply Field_required_sound, constr_list_decides, CrewMember_init_decides.
  - eapply Field_required_sound, constr_float_decides.
Qed.

Lemma SpaceStation_supplied_unique now kw self self' :
  space_station.supplied now kw self -> space_station.supplied now kw self' ->
  self = self'.
Proof.
  destruct self as [i n c p o l v t], self' as [i' n' c' p' o' l' v' t'].
  unfold space_station.supplied; simpl.
  intros (E1 & E2 & E3 & E4 & E5 & E6 & E7 & E8)
         (E1' & E2' & E3' & E4' & E5' & E6' & E7' & E8').
  rewrite E1 in E1'. rewrite E2 in E2'. rewrite E3 in E3'.
  rewrite E4 in E4'. rewrite E5 in E5'.
  injection E1' as <-. injection E2' as <-. injection E3' as <-.
  injection E4' as <-. injection E5' as <-. now subst.
Qed.

Lemma first_failing_In (R : Type) (rules : list (Spec.Rule R)) self msg :
  Spec.first_failing rules self = Some msg ->
  exists r, In r rules /\ Spec.message r = msg /\ Spec.holds r self = false.
Proof.
  induction rules as [|r rs IH]; simpl; [discriminate|].
  destruct (Spec.holds r self) eqn:Hr.
  - intros H. destruct (IH H) as (r' & Hin & Hm & Hh). exists r'. auto.
  - intros H. injection H as <-. exists r. auto.
Qed.

End Construction.

(** X1. Construction returns a record exactly when every field of the
    input is within its bounds and the record of the supplied values (with
    the defaults) satisfies every rule: it never repairs, clamps or replaces
    a supplied value. *)
Theorem construction_succeeds_iff :
  (forall now kw self,
      space_station.SpaceStation_init now kw = Pydantic.Ok self <->
      (forall f, space_station.within_bounds kw f = true) /\
      space_station.supplied now kw self /\
      Spec.all_hold space_station.rules self) /\
  (forall now kw self,
      alien_contact.AlienContact_init now kw = Pydantic.Ok self <->
      (forall f, alien_contact.within_bounds kw f = true) /\
      alien_contact.supplied now kw self /\
      Spec.all_hold alien_contact.rules self) /\
  (forall now kw self,
      space_crew.SpaceMission_init now kw = Pydantic.Ok self <->
      (forall f, space_crew.within_bounds kw f = true) /\
      space_crew.supplied now kw self /\
      Spec.all_hold space_crew.rules self) /\
  (forall kw self,
      space_crew.CrewMember_init kw = Pydantic.Ok self <->
      (forall f, space_crew.CrewMember_within_bounds kw f = true) /\
      space_crew.CrewMember_supplied kw self /\
      Spec.all_hold space_crew.CrewMember_rules self).
Proof.
  split; [|split; [|split]].
  - intros now kw self. split.
    + intros H. unfold space_station.SpaceStation_init in H.
      apply (@BaseModel_Ok_inv _ space_station.rules _
               (@no_validator_rules _)) in H.
      destruct H as [H Hr].
      apply SpaceStation_fields_Ok_inv in H. tauto.
    + intros (Hw & Hs & Hr).
      destruct (SpaceStation_init_within now kw Hw) as (self' & Hs' & Hi).
      rewrite (SpaceStation_supplied_unique Hs Hs'). apply Hi. constructor.
  - intros now kw self. split.
    + intros H. unfold alien_contact.AlienContact_init in H.
      apply (@BaseModel_Ok_inv _ alien_contact.rules _
               AlienContact_check_model_rules) in H.
      destruct H as [H Hr].
      apply AlienContact_fields_Ok_inv in H. tauto.
    + intros (Hw & Hs & Hr).
      destruct (AlienContact_init_within now kw Hw) as (self' & Hs' & Hi).
      rewrite <- (AlienContact_supplied_unique Hs Hs') in Hi. now apply Hi.
  - intros now kw self. split.
    + intros H. unfold space_crew.SpaceMission_init in H.
      apply (@BaseModel_Ok_inv _ space_crew.rules _
               SpaceMission_check_model_rules) in H.
      destruct H as [H Hr].
      apply SpaceMission_fields_Ok_inv in H. tauto.
    + intros (Hw & Hs & Hr).
      destruct (SpaceMission_init_within now kw Hw) as (self' & Hs' & Hi).
      rewrite <- (SpaceMission_supplied_unique Hs Hs') in Hi. now apply Hi.
  - intros kw self. split.
    + intros H. rewrite CrewMember_init_fields in H.
      apply CrewMember_fields_Ok_inv in H. destruct H as [Hw Hs].
      split; [exact Hw|]. split; [exact Hs|constructor].
    + intros (Hw & Hs & Hr).
      destruct (CrewMember_init_within kw Hw) as (self' & Hs' & Hi).
      rewrite <- (CrewMember_supplied_unique Hs Hs') in Hi. now apply Hi.
Qed.

Lemma construction_succeeds_iff_witness :
  exists self,
    alien_contact.AlienContact_init 0 alien_contact.contact1
    = Pydantic.Ok self /\
    (forall f, alien_contact.within_bounds alien_contact.contact1 f = true) /\
    alien_contact.supplied 0 alien_contact.contact1 self /\
    Spec.all_hold alien_contact.rules self.
Proof.
  eexists. split; [reflexivity|].
  apply (proj1 (proj1 (proj2 construction_succeeds_iff) 0
                  alien_contact.contact1 _)).
  reflexivity.
Defined.

(** X2. A failed construction always carries at least one error, and is of
    one of two kinds that never mix: errors of the field-constraint layer
    only, or exactly one error at the model itself carrying the message of
    a rule of the schema that the input fails. Station and Crew-Member only
    fail in the first way. *)
Theorem failure_is_field_errors_or_one_rule :
  (forall now kw es,
      space_station.SpaceStation_init now kw = Pydantic.ValidationError es ->
      Spec.constraint_errors es) /\
  (forall kw es,
      space_crew.CrewMember_init kw = Pydantic.ValidationError es ->
      Spec.constraint_errors es) /\
  (forall now kw es,
      alien_contact.AlienContact_init now kw = Pydantic.ValidationError es ->
      Spec.constraint_errors es \/
      exists r, In r alien_contact.rules /\
                alien_contact.AlienContact_init now kw
                = Spec.cross_field_violation (Spec.message r)) /\
  (forall now kw es,
      space_crew.SpaceMission_init now kw = Pydantic.ValidationError es ->
      Spec.constraint_errors es \/
      exists r, In r space_crew.rules /\
                space_crew.SpaceMission_init now kw
                = Spec.cross_field_violation (Spec.message r)).
Proof.
  split; [|split; [|split]].
  - intros now kw es. unfold space_station.SpaceStation_init.
    pose proof (SpaceStation_fields_sound now kw) as Hs.
    destruct (space_station.SpaceStation_fields now kw) as [self|es'];
      simpl; [discriminate|].
    intros H. injection H as <-. exact Hs.
  - intros kw es. rewrite CrewMember_init_fields.
    pose proof (CrewMember_fields_sound kw) as Hs.
    intros H. rewrite H in Hs. exact Hs.
  - intros now kw es. unfold alien_contact.AlienContact_init.
    pose proof (AlienContact_fields_sound now kw) as Hs.
    destruct (alien_contact.AlienContact_fields now kw) as [self|es'] eqn:Hf.
    + rewrite (@BaseModel_rules _ alien_contact.rules _
                 AlienContact_check_model_rules _ self eq_refl).
      destruct (Spec.first_failing alien_contact.rules self) as [msg|] eqn:Hff;
        [|discriminate].
      intros _. right.
      destruct (first_failing_In _ _ Hff) as (r & Hin & <- & _).
      now exists r.
    + simpl. intros H. injection H as <-. now left.
  - intros now kw es. unfold space_crew.SpaceMission_init.
    pose proof (SpaceMission_fields_sound now kw) as Hs.
    destruct (space_crew.SpaceMission_fields now kw) as [self|es'] eqn:Hf.
    + rewrite (@BaseModel_rules _ space_crew.rules _
                 SpaceMission_check_model_rules _ self eq_refl).
      destruct (Spec.first_failing space_crew.rules self) as [msg|] eqn:Hff;
        [|discriminate].
      intros _. right.
      destruct (first_failing_In _ _ Hff) as (r & Hin & <- & _).
      now exists r.
    + simpl. intros H. injection H as <-. now left.
Qed.

Lemma failure_is_field_errors_or_one_rule_witness :
  Spec.constraint_errors
    [ {| Pydantic.type := Pydantic.less_than_equal;
         Pydantic.loc := [Pydantic.Key "crew_size"] |} ].
Proof.
  apply (proj1 failure_is_field_errors_or_one_rule 0 space_station.station2).
  reflexivity.
Defined.

(** ** The first error of a failure *)

Section FirstError.
Import Py Pydantic.

Lemma ap_Ok_Ok (A B : Type) (g : A -> B) a : Ok g <*> Ok a = Ok (g a).
Proof. reflexivity. Qed.

Lemma ap_Ok_errors (A B : Type) (g : A -> B) es :
  Ok g <*> ValidationError es = ValidationError es.
Proof. reflexivity. Qed.

Lemma ap_keeps_first (A B : Type) name (v : Validated (A -> B))
  (x : Validated A) :
  Declaration.first_error_names name v ->
  Declaration.first_error_names name (v <*> x).
Proof.
  intros (e & es & -> & He). destruct x as [a|es2]; simpl.
  - now exists e, es.
  - now exists e, (es ++ es2)%list.
Qed.

Lemma BaseModel_keeps_first (R : Type) name (fields : Validated R) after :
  Declaration.first_error_names name fields ->
  Declaration.first_error_names name (BaseModel fields after).
Proof. intros (e & es & -> & He). now exists e, es. Qed.

Lemma field_errors_first (R : Type) name es :
  Spec.field_errors name es ->
  Declaration.first_error_names name (ValidationError es : Validated R).
Proof.
  intros [Hne Hall]. destruct es as [|e es]; [contradiction|].
  exists e, es. split; [reflexivity|]. now apply Forall_inv in Hall.
Qed.

End FirstError.

(** Settle the outcome [O] of field [F] when [f] is the first field out of
    bounds ([Hf]) and [H] says that the fields declared before it are
    within bounds; the outcome of a later field is left as it is. *)
Ltac settle_before O F H Hf :=
  first [ required_ok O (H F ltac:(simpl; lia))
        | defaulted_ok O (H F ltac:(simpl; lia))
        | field_bad O Hf
        | idtac ].

(** Conclude once the outcomes are settled. *)
Ltac first_error_of Hes :=
  rewrite ?ap_Ok_Ok, ?ap_Ok_errors;
  apply BaseModel_keeps_first; repeat apply ap_keeps_first;
  apply field_errors_first; exact Hes.

Section DeclarationOrder.
Import Py Pydantic.

Lemma SpaceStation_first_error now kw f :
  space_station.within_bounds kw f = false ->
  (forall g, (Declaration.station_index g < Declaration.station_index f)%nat ->
             space_station.within_bounds kw g = true) ->
  Declaration.first_error_names (space_station.field_name f)
    (space_station.SpaceStation_init now kw).
Proof.
  intros Hf H.
  pose proof (Field_required "station_id" (space_station.kw_station_id kw)
                (constr_str_decides 3 10)) as O1.
  pose proof (Field_required "name" (space_station.kw_name kw)
                (constr_str_decides 1 50)) as O2.
  pose proof (Field_required "crew_size" (space_station.kw_crew_size kw)
                (constr_int_decides 1 20)) as O3.
  pose proof (Field_required "power_level" (space_station.kw_power_level kw)
                (constr_float_decides 0%Q 100%Q)) as O4.
  pose proof (Field_required "oxygen_level" (space_station.kw_oxygen_level kw)
                (constr_float_decides 0%Q 100%Q)) as O5.
  pose proof (Field_defaulted "notes" None (space_station.kw_notes kw)
                (constr_str_max_decides 200)) as O8.
  unfold space_station.SpaceStation_init, space_station.SpaceStation_fields.
  rewrite !Field_any.
  destruct f; try discriminate Hf;
    settle_before O1 space_station.F_station_id H Hf;
    settle_before O2 space_station.F_name H Hf;
    settle_before O3 space_station.F_crew_size H Hf;
    settle_before O4 space_station.F_power_level H Hf;
    settle_before O5 space_station.F_oxygen_level H Hf;
    settle_before O8 space_station.F_notes H Hf;
    try rewrite O1; try rewrite O2; try rewrite O3; try rewrite O4;
    try rewrite O5; try rewrite O8;
    first_error_of Hes.
Qed.

Lemma AlienContact_first_error now kw f :
  alien_contact.within_bounds kw f = false ->
  (forall g, (Declaration.contact_index g < Declaration.contact_index f)%nat ->
             alien_contact.within_bounds kw g = true) ->
  Declaration.first_error_names (alien_contact.field_name f)
    (alien_contact.AlienContact_init now kw).
Proof.
  intros Hf H.
  pose proof (Field_required "contact_id" (alien_contact.kw_contact_id kw)
                (constr_str_decides 5 15)) as O1.
  pose proof (Field_required "location" (alien_contact.kw_location kw)
                (constr_str_decides 3 100)) as O3.
  pose proof (Field_required "contact_type" (alien_contact.kw_contact_type kw)
                ContactType_decides) as O4.
  pose proof (Field_required "signal_strength"
                (alien_contact.kw_signal_strength kw)
                (constr_float_decides 0%Q 10%Q)) as O5.
  pose proof (Field_required "duration_minutes"
                (alien_contact.kw_duration_minutes kw)
                (constr_int_decides 1 1440)) as O6.
  pose proof (Field_required "witness_count"
                (alien_contact.kw_witness_count kw)
                (constr_int_decides 1 100)) as O7.
  unfold alien_contact.AlienContact_init, alien_contact.AlienContact_fields.
  rewrite !Field_any.
  destruct f; try discriminate Hf;
    settle_before O1 alien_contact.F_contact_id H Hf;
    settle_before O3 alien_contact.F_location H Hf;
    settle_before O4 alien_contact.F_contact_type H Hf;
    settle_before O5 alien_contact.F_signal_strength H Hf;
    settle_before O6 alien_contact.F_duration_minutes H Hf;
    settle_before O7 alien_contact.F_witness_count H Hf;
    try rewrite O1; try rewrite O3; try rewrite O4; try rewrite O5;
    try rewrite O6; try rewrite O7;
    first_error_of Hes.
Qed.

Lemma CrewMember_first_error kw f :
  space_crew.CrewMember_within_bounds kw f = false ->
  (forall g, (Declaration.member_index g < Declaration.member_index f)%nat ->
             space_crew.CrewMember_within_bounds kw g = true) ->
  Declaration.first_error_names (space_crew.CrewMember_field_name f)
    (space_crew.CrewMember_init kw).
Proof.
  intros Hf H.
  pose proof (Field_required "member_id" (space_crew.kw_member_id kw)
                (constr_str_decides 3 10)) as O1.
  pose proof (Field_required "name" (space_crew.kw_name kw)
                (constr_str_decides 2 50)) as O2.
  pose proof (Field_required "rank" (space_crew.kw_rank kw) Rank_decides)
    as O3.
  pose proof (Field_required "age" (space_crew.kw_age kw)
                (constr_int_decides 18 80)) as O4.
  pose proof (Field_required "specialization" (space_crew.kw_specialization kw)
                (constr_str_decides 3 30)) as O5.
  pose proof (Field_required "years_experience"
                (space_crew.kw_years_experience kw)
                (constr_int_decides 0 50)) as O6.
  unfold space_crew.CrewMember_init, space_crew.CrewMember_fields.
  rewrite !Field_any.
  destruct f; try discriminate Hf;
    settle_before O1 space_crew.F_member_id H Hf;
    settle_before O2 space_crew.F_name H Hf;
    settle_before O3 space_crew.F_rank H Hf;
    settle_before O4 space_crew.F_age H Hf;
    settle_before O5 space_crew.F_specialization H Hf;
    settle_before O6 space_crew.F_years_experience H Hf;
    try rewrite O1; try rewrite O2; try rewrite O3; try rewrite O4;
    try rewrite O5; try rewrite O6;
    first_error_of Hes.
Qed.

Lemma SpaceMission_first_error now kw f :
  space_crew.within_bounds kw f = false ->
  (forall g, (Declaration.mission_index g < Declaration.mission_index f)%nat ->
             space_crew.within_bounds kw g = true) ->
  Declaration.first_error_names (space_crew.field_name f)
    (space_crew.SpaceMission_init now kw).
Proof.
  intros Hf H.
  pose proof (Field_required "mission_id" (space_crew.kw_mission_id kw)
                (constr_str_decides 5 15)) as O1.
  pose proof (Field_required "mission_name" (space_crew.kw_mission_name kw)
                (constr_str_decides 3 100)) as O2.
  pose proof (Field_required "destination" (space_crew.kw_destination kw)
                (constr_str_decides 3 50)) as O3.
  pose proof (Field_required "duration_days" (space_crew.kw_duration_days kw)
                (constr_int_decides 1 3650)) as O5.
  pose proof (Field_required "crew" (space_crew.kw_crew kw)
                (constr_list_decides CrewMember_init_decides 1 12)) as O6.
  pose proof (Field_required "budget_millions"
                (space_crew.kw_budget_millions kw)
                (constr_float_decides 1%Q 10000%Q)) as O8.
  unfold space_crew.SpaceMission_init, space_crew.SpaceMission_fields.
  rewrite !Field_any.
  destruct f; try discriminate Hf;
    settle_before O1 space_crew.F_mission_id H Hf;
    settle_before O2 space_crew.F_mission_name H Hf;
    settle_before O3 space_crew.F_destination H Hf;
    settle_before O5 space_crew.F_duration_days H Hf;
    settle_before O6 space_crew.F_crew H Hf;
    settle_before O8 space_crew.F_budget_millions H Hf;
    try rewrite O1; try rewrite O2; try rewrite O3; try rewrite O5;
    try rewrite O6; try rewrite O8;
    first_error_of Hes.
Qed.

End DeclarationOrder.

(** X3. When several fields are out of bounds, the errors come in the order
    of the field declarations: the first error, the one whose message the
    [main] functions print, names the first declared field that is out of
    bounds. *)
Theorem first_error_names_first_bad_field :
  (forall now kw f,
      space_station.within_bounds kw f = false ->
      (forall g,
          (Declaration.station_index g < Declaration.station_index f)%nat ->
          space_station.within_bounds kw g = true) ->
      Declaration.first_error_names (space_station.field_name f)
        (space_station.SpaceStation_init now kw)) /\
  (forall now kw f,
      alien_contact.within_bounds kw f = false ->
      (forall g,
          (Declaration.contact_index g < Declaration.contact_index f)%nat ->
          alien_contact.within_bounds kw g = true) ->
      Declaration.first_error_names (alien_contact.field_name f)
        (alien_contact.AlienContact_init now kw)) /\
  (forall now kw f,
      space_crew.within_bounds kw f = false ->
      (forall g,
          (Declaration.mission_index g < Declaration.mission_index f)%nat ->
          space_crew.within_bounds kw g = true) ->
      Declaration.first_error_names (space_crew.field_name f)
        (space_crew.SpaceMission_init now kw)) /\
  (forall kw f,
      space_crew.CrewMember_within_bounds kw f = false ->
      (forall g,
          (Declaration.member_index g < Declaration.member_index f)%nat ->
          space_crew.CrewMember_within_bounds kw g = true) ->
      Declaration.first_error_names (space_crew.CrewMember_field_name f)
        (space_crew.CrewMember_init kw)).
Proof.
  split; [|split; [|split]].
  - exact SpaceStation_first_error.
  - exact AlienContact_first_error.
  - exact SpaceMission_first_error.
  - exact CrewMember_first_error.
Qed.

Lemma first_error_names_first_bad_field_witness :
  space_station.within_bounds Declaration.station3
    space_station.F_crew_size = false /\
  space_station.within_bounds Declaration.station3
    space_station.F_power_level = false /\
  Declaration.first_error_names "crew_size"
    (space_station.SpaceStation_init 0 Declaration.station3).
Proof.
  split; [reflexivity|]. split; [reflexivity|].
  apply (proj1 first_error_names_first_bad_field 0 Declaration.station3
           space_station.F_crew_size).
  - reflexivity.
  - intros [] Hlt; simpl in Hlt; try lia; reflexivity.
Defined.

(** ** Rules and defaults of a Contact *)

Section ContactDefaults.
Import Py Pydantic.

Lemma AlienContact_init_Ok_inv now kw self :
  alien_contact.AlienContact_init now kw = Ok self ->
  (forall f, alien_contact.within_bounds kw f = true) /\
  alien_contact.supplied now kw self /\
  Spec.all_hold alien_contact.rules self.
Proof.
  intros H. unfold alien_contact.AlienContact_init in H.
  apply (@BaseModel_Ok_inv _ alien_contact.rules _
           AlienContact_check_model_rules) in H.
  destruct H as [H Hr]. apply AlienContact_fields_Ok_inv in H. tauto.
Qed.

Lemma SpaceMission_init_Ok_inv now kw self :
  space_crew.SpaceMission_init now kw = Ok self ->
  (forall f, space_crew.within_bounds kw f = true) /\
  space_crew.supplied now kw self /\
  Spec.all_hold space_crew.rules self.
Proof.
  intros H. unfold space_crew.SpaceMission_init in H.
  apply (@BaseModel_Ok_inv _ space_crew.rules _
           SpaceMission_check_model_rules) in H.
  destruct H as [H Hr]. apply SpaceMission_fields_Ok_inv in H. tauto.
Qed.

Lemma all_hold_nth (R : Type) (rules : list (Spec.Rule R)) self k r :
  Spec.all_hold rules self -> nth_error rules k = Some r ->
  Spec.holds r self = true.
Proof.
  intros Hall Hk. unfold Spec.all_hold in Hall.
  rewrite Forall_forall in Hall. apply Hall. eapply nth_error_In, Hk.
Qed.

End ContactDefaults.

(** X4. [is_verified] defaults to false and [message_received] to [None]:
    so a physical contact never constructs unless [is_verified=True] is
    passed, and a contact with a signal above 7 never constructs unless a
    message is passed. *)
Theorem contact_defaults_block_construction :
  (forall now kw self,
      alien_contact.kw_contact_type kw = Some "physical" ->
      alien_contact.kw_is_verified kw <> Some true ->
      alien_contact.AlienContact_init now kw <> Pydantic.Ok self) /\
  (forall now kw self s,
      alien_contact.kw_signal_strength kw = Some s ->
      (7 < s)%Q ->
      (forall m, alien_contact.kw_message_received kw <> Some (Some m)) ->
      alien_contact.AlienContact_init now kw <> Pydantic.Ok self).
Proof.
  split.
  - intros now kw self Ht Hv Hi.
    apply AlienContact_init_Ok_inv in Hi.
    destruct Hi as (_ & (_ & _ & _ & E4 & _ & _ & _ & _ & E9) & Hr).
    pose proof (all_hold_nth 1 Hr eq_refl) as H2. simpl in H2.
    rewrite Ht in E4. injection E4 as E4.
    destruct (alien_contact.contact_type self); try discriminate E4.
    rewrite E9 in H2.
    destruct (alien_contact.kw_is_verified kw) as [[|]|]; simpl in H2;
      try discriminate H2.
    now apply Hv.
  - intros now kw self s Hs H7 Hm Hi.
    apply AlienContact_init_Ok_inv in Hi.
    destruct Hi as (_ & (_ & _ & _ & _ & E5 & _ & _ & E8 & _) & Hr).
    pose proof (all_hold_nth 3 Hr eq_refl) as H4. simpl in H4.
    rewrite Hs in E5. injection E5 as E5. subst s.
    unfold alien_contact.strictly_above in H4.
    apply Qlt_alt in H7.
    change ((7 ?= alien_contact.signal_strength self)%Q = Lt) in H7.
    rewrite H7, E8 in H4.
    destruct (alien_contact.kw_message_received kw) as [[m|]|]; simpl in H4;
      try discriminate H4.
    now apply (Hm m).
Qed.

Lemma contact_defaults_block_construction_witness :
  (forall self,
      alien_contact.AlienContact_init 0 Declaration.physical_contact
      <> Pydantic.Ok self) /\
  (forall self,
      alien_contact.AlienContact_init 0 Declaration.strong_contact
      <> Pydantic.Ok self).
Proof.
  split.
  - intros self.
    apply (proj1 contact_defaults_block_construction 0
             Declaration.physical_contact self).
    + reflexivity.
    + discriminate.
  - intros self.
    apply (proj2 contact_defaults_block_construction 0
             Declaration.strong_contact self 9%Q).
    + reflexivity.
    + reflexivity.
    + discriminate.
Defined.

(** ** The crew of a Mission *)

(** X5. [active_crew] is true exactly when every member is active, so it is
    true of the empty crew; and a Mission whose fields are within bounds and
    whose first three rules hold fails with "All crew members must be
    active" as soon as one member is not active. *)
Theorem active_crew_rule :
  (forall crew,
      space_crew.active_crew crew = true <->
      forall p, In p crew -> space_crew.is_active p = true) /\
  (forall now kw self,
      (forall f, space_crew.within_bounds kw f = true) ->
      space_crew.supplied now kw self ->
      prefix "M" (space_crew.mission_id self) = true ->
      (exists p, In p (space_crew.crew self) /\
                 (space_crew.rank p = space_crew.commander \/
                  space_crew.rank p = space_crew.captain)) ->
      (space_crew.duration_days self <= 365 \/
       space_crew.experience_crew (space_crew.crew self) = true) ->
      (exists p, In p (space_crew.crew self) /\
                 space_crew.is_active p = false) ->
      space_crew.SpaceMission_init now kw
      = Spec.cross_field_violation "All crew members must be active").
Proof.
  split.
  - intros crew. rewrite active_crew_spec. apply forallb_forall.
  - intros now kw self Hw Hs HM (c & Hc & Hrank) Hexp (p & Hp & Hact).
    apply (SpaceMission_init_first_failing (self := self) (k := 3%nat)
             (r := {| Spec.holds := fun m =>
                        forallb space_crew.is_active (space_crew.crew m);
                      Spec.message := "All crew members must be active" |})
             Hw Hs).
    split; [reflexivity|]. split.
    + simpl. apply not_true_is_false. intros Hall.
      rewrite forallb_forall in Hall. specialize (Hall p Hp). congruence.
    + intros [|[|[|j]]] r' Hj Hr'; try lia; injection Hr' as <-; simpl.
      * exact HM.
      * apply existsb_exists. exists c. split; [exact Hc|].
        unfold space_crew.commands. now destruct Hrank as [-> | ->].
      * rewrite <- experience_crew_spec.
        destruct Hexp as [Hd|He]; [|rewrite He; apply implb_true_r].
        replace (365 <? space_crew.duration_days self) with false;
          [reflexivity|]. symmetry. apply Z.ltb_ge. exact Hd.
Qed.

Lemma active_crew_rule_witness :
  space_crew.SpaceMission_init 0 Declaration.mission3
  = Spec.cross_field_violation "All crew members must be active".
Proof.
  apply (proj2 active_crew_rule 0 Declaration.mission3
           (Declaration.mission3_record 0)).
  - intros []; reflexivity.
  - unfold space_crew.supplied; simpl. repeat split.
    eexists. split; [reflexivity|]. repeat constructor.
  - reflexivity.
  - eexists. split; [left; reflexivity|]. left. reflexivity.
  - right. reflexivity.
  - eexists. split; [right; right; left; reflexivity|]. reflexivity.
Defined.

Section CrewOrder.
Import space_crew.

Lemma filter_Permutation (A : Type) (f : A -> bool) l l' :
  Permutation l l' -> Permutation (filter f l) (filter f l').
Proof.
  induction 1 as [|x l l' _ IH|x y l|l l' l'' _ IH1 _ IH2]; simpl.
  - constructor.
  - destruct (f x); [now constructor|exact IH].
  - destruct (f x), (f y); try apply Permutation_refl. apply perm_swap.
  - now apply Permutation_trans with (filter f l').
Qed.

Lemma existsb_Permutation (A : Type) (f : A -> bool) l l' :
  Permutation l l' -> existsb f l = existsb f l'.
Proof.
  intros HP. apply Bool.eq_iff_eq_true. rewrite !existsb_exists.
  split; intros (x & Hin & Hx); exists x; split; try exact Hx.
  - eapply Permutation_in; eassumption.
  - eapply Permutation_in; [apply Permutation_sym|]; eassumption.
Qed.

Lemma forallb_Permutation (A : Type) (f : A -> bool) l l' :
  Permutation l l' -> forallb f l = forallb f l'.
Proof.
  intros HP. apply Bool.eq_iff_eq_true. rewrite !forallb_forall.
  split; intros H x Hin; apply H.
  - eapply Permutation_in; [apply Permutation_sym|]; eassumption.
  - eapply Permutation_in; eassumption.
Qed.

End CrewOrder.

(** X6. The three crew predicates do not depend on the order of the crew:
    they give the same answer on any rearrangement of the list. *)
Theorem crew_predicates_ignore_order :
  forall crew crew',
    Permutation crew crew' ->
    space_crew.not_min_rank crew = space_crew.not_min_rank crew' /\
    space_crew.active_crew crew = space_crew.active_crew crew' /\
    space_crew.experience_crew crew = space_crew.experience_crew crew'.
Proof.
  intros crew crew' HP. split; [|split].
  - rewrite !not_min_rank_spec. f_equal. now apply existsb_Permutation.
  - rewrite !active_crew_spec. now apply forallb_Permutation.
  - rewrite !experience_crew_spec. unfold space_crew.nb_experienced.
    rewrite (Permutation_length HP).
    now rewrite (Permutation_length
                   (filter_Permutation space_crew.experienced HP)).
Qed.

Lemma crew_predicates_ignore_order_witness :
  space_crew.not_min_rank (rev space_crew.crew1)
  = space_crew.not_min_rank space_crew.crew1 /\
  space_crew.active_crew (rev space_crew.crew1)
  = space_crew.active_crew space_crew.crew1 /\
  space_crew.experience_crew (rev space_crew.crew1)
  = space_crew.experience_crew space_crew.crew1.
Proof.
  apply (@crew_predicates_ignore_order (rev space_crew.crew1) space_crew.crew1).
  apply Permutation_sym, Permutation_rev.
Defined.

(** X7. Reading an enumeration member back from its value returns that
    member, for contact types and for ranks, and a string is accepted only
    if it is the value of the member returned: no two members share a value
    and lookup is case-sensitive. *)
Theorem enum_value_round_trip :
  (forall t,
      Pydantic.enum_of alien_contact.ContactType_members
        alien_contact.ContactType_value (alien_contact.ContactType_value t)
      = Pydantic.Ok t) /\
  (forall s t,
      Pydantic.enum_of alien_contact.ContactType_members
        alien_contact.ContactType_value s = Pydantic.Ok t ->
      s = alien_contact.ContactType_value t) /\
  (forall r,
      Pydantic.enum_of space_crew.Rank_members space_crew.Rank_value
        (space_crew.Rank_value r) = Pydantic.Ok r) /\
  (forall s r,
      Pydantic.enum_of space_crew.Rank_members space_crew.Rank_value s
      = Pydantic.Ok r ->
      s = space_crew.Rank_value r).
Proof.
  split; [|split; [|split]].
  - intros []; reflexivity.
  - intros s t H. pose proof (ContactType_decides s) as Hd.
    cbv beta in Hd. rewrite H in Hd.
    destruct (existsb (String.eqb s)
                ["radio"; "visual"; "physical"; "telepathic"]).
    + destruct Hd as (b & Hb & Hs). now injection Hb as <-.
    + destruct Hd as (es & Hes & _). discriminate Hes.
  - intros []; reflexivity.
  - intros s r H. pose proof (Rank_decides s) as Hd.
    cbv beta in Hd. rewrite H in Hd.
    destruct (existsb (String.eqb s)
                ["cadet"; "officer"; "lieutenant"; "captain"; "commander"]).
    + destruct Hd as (b & Hb & Hs). now injection Hb as <-.
    + destruct Hd as (es & Hes & _). discriminate Hes.
Qed.

Lemma enum_value_round_trip_witness :
  "captain" = space_crew.Rank_value space_crew.captain.
Proof.
  apply (proj2 (proj2 (proj2 enum_value_round_trip)) "captain"
           space_crew.captain).
  reflexivity.
Defined.

(** ** Durations outside the bounds of the field *)

Section Durations.
Import Py alien_contact.

(** [convert_duration] is the phrase of the specification on every
    integer. *)
Lemma convert_duration_all duration :
  convert_duration duration = duration_phrase duration.
Proof.
  unfold convert_duration, duration_phrase, unit_phrase.
  pose proof (Z.mod_pos_bound duration 60 ltac:(lia)) as Hm.
  pose proof (Z.div_mod duration 60 ltac:(lia)) as Hdm.
  rewrite !Z.geb_leb.
  destruct (Z.leb_spec 60 duration) as [H60|H60];
    destruct (Z.eqb_spec (duration mod 60) 0) as [H0|H0];
    destruct (Z.eqb_spec (duration mod 60) 1) as [H1|H1];
    destruct (Z.leb_spec 120 duration) as [H120|H120];
    destruct (Z.eqb_spec (duration / 60) 1) as [Hh|Hh];
    try lia; cbn [negb append]; rewrite ?string_append_assoc;
    cbn [append]; reflexivity.
Qed.

Lemma unit_phrase_nonempty count unit rest :
  unit_phrase count unit ++ rest <> "".
Proof.
  unfold unit_phrase. destruct (str count); simpl; discriminate.
Qed.

Lemma unit_phrase_alone_nonempty count unit : unit_phrase count unit <> "".
Proof.
  unfold unit_phrase. destruct (str count); simpl; discriminate.
Qed.

Lemma duration_phrase_empty duration :
  duration_phrase duration = "" <-> duration < 60 /\ duration mod 60 = 0.
Proof.
  unfold duration_phrase.
  destruct (Z.leb_spec 60 duration) as [H60|H60];
    destruct (Z.eqb_spec (duration mod 60) 0) as [H0|H0]; cbn [negb].
  - split; [|lia]. intros H. exfalso.
    exact (unit_phrase_alone_nonempty _ _ H).
  - split; [|lia]. intros H. exfalso.
    exact (unit_phrase_nonempty _ _ _ H).
  - split; [intros _; lia|reflexivity].
  - split; [|lia]. intros H. exfalso.
    exact (unit_phrase_alone_nonempty _ _ H).
Qed.

End Durations.

(** X8. [convert_duration] returns the empty string exactly for 0 and for
    the negative multiples of 60; so for every duration that the field
    accepts (1 to 1440) it returns a phrase that is not empty. *)
Theorem convert_duration_empty_iff :
  (forall duration,
      alien_contact.convert_duration duration = "" <->
      duration < 60 /\ duration mod 60 = 0) /\
  (forall duration,
      1 <= duration -> alien_contact.convert_duration duration <> "").
Proof.
  split.
  - intros duration. rewrite convert_duration_all.
    apply duration_phrase_empty.
  - intros duration Hd H. rewrite convert_duration_all in H.
    apply duration_phrase_empty in H. destruct H as [H60 H0].
    rewrite Z.mod_small in H0; lia.
Qed.

Lemma convert_duration_empty_iff_witness :
  alien_contact.convert_duration 1440 <> "" /\
  alien_contact.convert_duration (-120) = "".
Proof.
  split.
  - apply (proj2 convert_duration_empty_iff 1440). lia.
  - apply (proj1 convert_duration_empty_iff (-120)). split; [lia|reflexivity].
Defined.

(** X9. For a duration below 60, negative ones included, there is no hour
    phrase: the result is the minute phrase of [duration % 60], a count from
    1 to 59 by Python's floor modulo, or the empty string when that is 0. A
    negative duration is thus shown as a positive number of minutes. *)
Theorem convert_duration_below_an_hour :
  forall duration,
    duration < 60 ->
    0 <= duration mod 60 < 60 /\
    alien_contact.convert_duration duration
    = if duration mod 60 =? 0 then ""
      else Py.str (duration mod 60) ++ " minute"
           ++ (if duration mod 60 =? 1 then "" else "s").
Proof.
  intros duration Hd.
  split; [apply Z.mod_pos_bound; lia|].
  unfold alien_contact.convert_duration.
  rewrite Z.geb_leb.
  destruct (Z.leb_spec 60 duration) as [H60|_]; [lia|].
  destruct (duration mod 60 =? 0); [reflexivity|].
  now destruct (duration mod 60 =? 1).
Qed.

Lemma convert_duration_below_an_hour_witness :
  alien_contact.convert_duration (-1) = "59 minutes".
Proof.
  apply (proj2 (@convert_duration_below_an_hour (-1) ltac:(lia))).
Defined.

(** ** What is printed *)

Section Printed.
Import Py Pydantic.

Lemma substring_all s : substring 0 (String.length s) s = s.
Proof. induction s as [|c s IH]; simpl; [reflexivity|now rewrite IH]. Qed.

(** Cutting a prefix off with [s[n:]]. *)
Lemma slice_from_prefix p m :
  Output.slice_from (String.length p) (p ++ m) = m.
Proof.
  unfold Output.slice_from. induction p as [|c p IH]; simpl.
  - rewrite Nat.sub_0_r. apply substring_all.
  - exact IH.
Qed.

Lemma AlienContact_errors_nonempty now kw :
  alien_contact.AlienContact_init now kw <> ValidationError [].
Proof.
  unfold alien_contact.AlienContact_init, BaseModel.
  pose proof (AlienContact_fields_sound now kw) as Hs.
  destruct (alien_contact.AlienContact_fields now kw) as [self|es].
  - destruct (alien_contact.check_model self); discriminate.
  - destruct Hs as [Hne _]. congruence.
Qed.

Lemma SpaceMission_errors_nonempty now kw :
  space_crew.SpaceMission_init now kw <> ValidationError [].
Proof.
  unfold space_crew.SpaceMission_init, BaseModel.
  pose proof (SpaceMission_fields_sound now kw) as Hs.
  destruct (space_crew.SpaceMission_fields now kw) as [self|es].
  - destruct (space_crew.check_model self); discriminate.
  - destruct Hs as [Hne _]. congruence.
Qed.

End Printed.

(** X10. For a contact that construction returned, [display_contact] prints
    6 lines, and a 7th with the message exactly when there is one; its 5th
    line is "Duration: " followed by the phrase of the duration, which is
    never empty. *)
Theorem display_contact_lines :
  forall str_round str_ContactType now kw contact,
    alien_contact.AlienContact_init now kw = Pydantic.Ok contact ->
    let lines := Output.display_contact str_round str_ContactType contact in
    List.length lines
    = match alien_contact.message_received contact with
      | Some _ => 7%nat
      | None => 6%nat
      end /\
    (forall m, alien_contact.message_received contact = Some m ->
               nth_error lines 6 = Some ("Message: '" ++ m ++ "'")) /\
    nth_error lines 4
    = Some ("Duration: "
              ++ alien_contact.duration_phrase
                   (alien_contact.duration_minutes contact)) /\
    alien_contact.duration_phrase (alien_contact.duration_minutes contact)
    <> "".
Proof.
  intros str_round str_ContactType now kw contact Hi lines.
  apply AlienContact_init_valid in Hi.
  destruct Hi as [(_ & _ & _ & Hd & _) _].
  unfold lines, Output.display_contact. split; [|split; [|split]].
  - now destruct (alien_contact.message_received contact).
  - intros m ->. reflexivity.
  - cbn [List.app nth_error]. now rewrite convert_duration_all.
  - intros H. apply duration_phrase_empty in H. destruct H as [H60 H0].
    rewrite Z.mod_small in H0; lia.
Qed.

Lemma display_contact_lines_witness :
  exists contact,
    alien_contact.AlienContact_init 0 alien_contact.contact1
    = Pydantic.Ok contact /\
    nth_error
      (Output.display_contact (fun _ _ => "8.5"%string)
         alien_contact.ContactType_value contact) 4
    = Some "Duration: 45 minutes".
Proof.
  eexists. split; [reflexivity|].
  apply (@display_contact_lines (fun _ _ => "8.5"%string)
           alien_contact.ContactType_value 0 alien_contact.contact1 _
           eq_refl).
Defined.

(** X11. For a mission that construction returned, [display_mission] prints
    7 lines and then one line per crew member in crew order, 8 to 19 lines
    in all; the duration line has "day" in the singular exactly when the
    mission lasts 1 day. *)
Theorem display_mission_lines :
  forall str_round format_Rank now kw mission,
    space_crew.SpaceMission_init now kw = Pydantic.Ok mission ->
    let lines := Output.display_mission str_round format_Rank mission in
    List.length lines = (7 + List.length (space_crew.crew mission))%nat /\
    (8 <= List.length lines <= 19)%nat /\
    nth_error lines 3
    = Some ("Duration: " ++ Py.str (space_crew.duration_days mission)
              ++ (if space_crew.duration_days mission =? 1
                  then " day" else " days")) /\
    (forall i person,
        nth_error (space_crew.crew mission) i = Some person ->
        nth_error lines (7 + i)
        = Some ("- " ++ space_crew.name person
                  ++ " (" ++ format_Rank (space_crew.rank person) ++ ") - "
                  ++ space_crew.specialization person)).
Proof.
  intros str_round format_Rank now kw mission Hi lines.
  apply SpaceMission_init_valid in Hi.
  destruct Hi as [(_ & _ & _ & Hd & Hlen & _) _].
  assert (List.length lines = (7 + List.length (space_crew.crew mission))%nat)
    as Hl.
  { unfold lines, Output.display_mission.
    rewrite length_app, length_map. reflexivity. }
  split; [exact Hl|]. split; [lia|]. split.
  - unfold lines, Output.display_mission. cbn [List.app nth_error].
    rewrite Z.gtb_ltb.
    destruct (Z.ltb_spec 1 (space_crew.duration_days mission)),
             (Z.eqb_spec (space_crew.duration_days mission) 1);
      try lia; reflexivity.
  - intros i person Hp. unfold lines, Output.display_mission.
    rewrite nth_error_app2 by (simpl; lia).
    replace (7 + i - _)%nat with i by (simpl; lia).
    now rewrite nth_error_map, Hp.
Qed.

Lemma display_mission_lines_witness :
  exists mission,
    space_crew.SpaceMission_init 0 space_crew.mission1
    = Pydantic.Ok mission /\
    List.length
      (Output.display_mission (fun _ _ => "2500.0"%string)
         space_crew.Rank_value mission) = 10%nat.
Proof.
  eexists. split; [reflexivity|].
  apply (@display_mission_lines (fun _ _ => "2500.0"%string)
           space_crew.Rank_value 0 space_crew.mission1 _ eq_refl).
Defined.

(** X12. The [except] blocks of [main] in ex1 and ex2 never fail on
    [errors()[0]], since a failure carries at least one error; and when the
    failure is that of a rule, what they print after "Expected validation
    error:" is exactly the message of the rule: the 13 characters cut off
    are pydantic's "Value error, ". *)
Theorem except_block_prints_rule_message :
  (forall constraint_msg str_round str_ContactType now kw,
      Output.try_contact constraint_msg str_round str_ContactType now kw
      <> None) /\
  (forall constraint_msg str_round format_Rank now kw,
      Output.try_mission constraint_msg str_round format_Rank now kw
      <> None) /\
  (forall constraint_msg str_round str_ContactType now kw self k r,
      (forall f, alien_contact.within_bounds kw f = true) ->
      alien_contact.supplied now kw self ->
      Spec.first_failing_at alien_contact.rules self k r ->
      Output.try_contact constraint_msg str_round str_ContactType now kw
      = Some [ "Expected validation error:"; Spec.message r ]) /\
  (forall constraint_msg str_round format_Rank now kw self k r,
      (forall f, space_crew.within_bounds kw f = true) ->
      space_crew.supplied now kw self ->
      Spec.first_failing_at space_crew.rules self k r ->
      Output.try_mission constraint_msg str_round format_Rank now kw
      = Some [ "Expected validation error:"; Spec.message r ]).
Proof.
  split; [|split; [|split]].
  - intros constraint_msg str_round str_ContactType now kw.
    unfold Output.try_contact.
    pose proof (AlienContact_errors_nonempty now kw) as Hne.
    destruct (alien_contact.AlienContact_init now kw) as [c|[|e es]];
      [discriminate|congruence|discriminate].
  - intros constraint_msg str_round format_Rank now kw.
    unfold Output.try_mission.
    pose proof (SpaceMission_errors_nonempty now kw) as Hne.
    destruct (space_crew.SpaceMission_init now kw) as [c|[|e es]];
      [discriminate|congruence|discriminate].
  - intros constraint_msg str_round str_ContactType now kw self k r Hw Hs Hk.
    unfold Output.try_contact.
    rewrite (AlienContact_init_first_failing Hw Hs Hk).
    unfold Spec.cross_field_violation, Output.first_msg, Output.msg.
    cbn [Pydantic.type].
    pose proof (slice_from_prefix "Value error, " (Spec.message r)) as Hcut.
    cbn [String.length] in Hcut. now rewrite Hcut.
  - intros constraint_msg str_round format_Rank now kw self k r Hw Hs Hk.
    unfold Output.try_mission.
    rewrite (SpaceMission_init_first_failing Hw Hs Hk).
    unfold Spec.cross_field_violation, Output.first_msg, Output.msg.
    cbn [Pydantic.type].
    pose proof (slice_from_prefix "Value error, " (Spec.message r)) as Hcut.
    cbn [String.length] in Hcut. now rewrite Hcut.
Qed.

Lemma except_block_prints_rule_message_witness :
  Output.try_mission (fun _ => ""%string) (fun _ _ => ""%string)
    space_crew.Rank_value 0 space_crew.mission2
  = Some [ "Expected validation error:";
           "Must have at least one Commander or Captain" ].
Proof.
  refine (proj2 (proj2 (proj2 except_block_prints_rule_message))
            (fun _ => ""%string) (fun _ _ => ""%string) space_crew.Rank_value
            0 space_crew.mission2 (space_crew.mission2_record 0) 1%nat
            {| Spec.holds := fun m =>
                 existsb space_crew.commands (space_crew.crew m);
               Spec.message :=
                 "Must have at least one Commander or Captain" |}
            _ _ _).
  - intros []; reflexivity.
  - unfold space_crew.supplied; simpl. repeat split.
    eexists. split; [reflexivity|]. repeat constructor.
  - split; [reflexivity|]. split; [reflexivity|].
    intros [|j] r' Hj Hr'; try lia; injection Hr' as <-; reflexivity.
Defined.

(** X13. [experience_crew] compares integers in the end: it is true exactly
    when the crew size is at most twice the number of members with more
    than 5 years of experience. So it holds of the empty crew and of a crew
    whose members all have more than 5 years, and fails for a crew that is
    not empty and has no such member. *)
Theorem experience_crew_extremes :
  (forall crew,
      space_crew.experience_crew crew = true <->
      (List.length crew <= 2 * space_crew.nb_experienced crew)%nat) /\
  (forall crew,
      (forall p, In p crew -> 5 < space_crew.years_experience p) ->
      space_crew.experience_crew crew = true) /\
  (forall crew,
      crew <> [] ->
      (forall p, In p crew -> space_crew.years_experience p <= 5) ->
      space_crew.experience_crew crew = false).
Proof.
  split; [|split].
  - intros crew. rewrite experience_crew_spec. apply Nat.leb_le.
  - intros crew Hall. rewrite experience_crew_spec. apply Nat.leb_le.
    unfold space_crew.nb_experienced.
    replace (filter space_crew.experienced crew) with crew; [lia|].
    symmetry. apply forallb_filter_id. apply forallb_forall.
    intros p Hp. unfold space_crew.experienced. apply Z.ltb_lt. now apply Hall.
  - intros crew Hne Hnone. rewrite experience_crew_spec. apply Nat.leb_gt.
    unfold space_crew.nb_experienced.
    replace (filter space_crew.experienced crew) with (@nil space_crew.CrewMember).
    + destruct crew; [contradiction|simpl; lia].
    + symmetry. induction crew as [|p crew IH]; [reflexivity|]. simpl.
      unfold space_crew.experienced at 1.
      replace (5 <? space_crew.years_experience p) with false.
      * destruct crew as [|q crew]; [reflexivity|].
        apply IH; [discriminate|]. intros x Hx. apply Hnone. now right.
      * symmetry. apply Z.ltb_ge. apply Hnone. now left.
Qed.

Lemma experience_crew_extremes_witness :
  space_crew.experience_crew (tl space_crew.crew1) = true /\
  space_crew.experience_crew (firstn 1 space_crew.crew1) = false.
Proof.
  destruct experience_crew_extremes as (_ & Hall & Hnone). split.
  - apply (Hall (tl space_crew.crew1)).
    simpl. intros p [<-|[<-|[]]]; simpl; lia.
  - apply (Hnone (firstn 1 space_crew.crew1)).
    + discriminate.
    + simpl. intros p [<-|[]]; simpl; lia.
Defined.
